(** * TempConv (src/model/tempcnn.py): position table, decoder, model
      construction and forward pass.

    The Python module is embedded function by function.  Numbers that the
    source computes in floating point are idealised as real numbers
    (rounding and the final narrowing to single precision are not
    modelled); integers are [Z]; Python lists that the constructor mutates
    live in a heap of list objects, so that aliasing with the caller's
    lists is visible. *)

From Stdlib Require Import Reals.
From stdpp Require Import gmap strings list pretty.

Open Scope Z_scope.

(** ** Python exceptions and fallible results *)

Inductive exn : Set :=
| IndexError
| AttributeError
| AssertionError
| RuntimeError
| TypeError
| ValueError.

Inductive result (A : Type) : Type :=
| Ok (a : A)
| Raise (e : exn).
Arguments Ok {A} a.
Arguments Raise {A} e.

#[global] Instance result_ret : MRet result := λ A a, Ok a.
#[global] Instance result_bind : MBind result := λ A B k r,
  match r with
  | Ok a => k a
  | Raise e => Raise e
  end.

Definition is_ok {A} (r : result A) : bool :=
  match r with Ok _ => true | Raise _ => false end.

(** [range(n)] for a Python integer [n]: empty when [n <= 0]. *)
Definition py_range (n : Z) : list Z := Z.of_nat <$> seq 0 (Z.to_nat n).

(** ** numpy arrays, as far as the table construction uses them *)

(** [np.array] of a list of rows is one-dimensional of shape (0,) when the
    list is empty, and two-dimensional otherwise (the rows built by the
    source all have the same length). *)
Inductive ndarray : Type :=
| Nd1 (v : list R)
| Nd2 (nrows ncols : nat) (m : list (list R)).

Definition np_array (rows : list (list R)) : ndarray :=
  match rows with
  | [] => Nd1 []
  | r :: _ => Nd2 (length rows) (length r) rows
  end.

(** Column [j] belongs to the slice [start::step]. *)
Definition in_slice (start step j : nat) : bool :=
  (start <=? j)%nat && ((j - start) `mod` step =? 0)%nat.

(** [a[:, start::2] = f(a[:, start::2])]: two indices on a one-dimensional
    array raise IndexError. *)
Definition assign_cols (start : nat) (f : R → R) (a : ndarray) : result ndarray :=
  match a with
  | Nd1 _ => Raise IndexError
  | Nd2 n d m =>
      Ok (Nd2 n d (map (imap (λ j x, if in_slice start 2 j then f x else x)) m))
  end.

(** ** get_sinusoid_encoding_table

    [positions] is an integer or a list of integers.  [/] is true division
    and [//] floor division.  [np.power(T, x)] is the real power [Rpower]
    for a positive base [T], and 1 for the exponent 0 with any base, which
    are the cases in which the two agree: for [T <= 0] and a fractional
    exponent numpy yields nan (or 0 for [T = 0]) where [Rpower] is 1.  The
    exponents of columns 0 and 1 are 0; what is stated below about the
    entries of later columns therefore assumes [0 < T] (the constructor
    passes [T = 1000]).  The table is returned as the array it is built
    as: the conversion to a tensor and its placement on a device change
    neither shape nor entries. *)

Inductive positions_arg : Type :=
| PInt (n : Z)
| PList (l : list Z).

Definition positions_list (positions : positions_arg) : list Z :=
  match positions with
  | PInt n => py_range n
  | PList l => l
  end.

Section SinusoidTable.
Variable d_hid : Z.
Variable T : R.

Definition cal_angle (position hid_idx : Z) : R :=
  (IZR position / Rpower T (IZR (2 * (hid_idx `div` 2)) / IZR d_hid))%R.

Definition get_posi_angle_vec (position : Z) : list R :=
  map (cal_angle position) (py_range d_hid).

Definition get_sinusoid_encoding_table (positions : positions_arg)
  : result ndarray :=
  let positions := positions_list positions in
  let sinusoid_table := np_array (map get_posi_angle_vec positions) in
  sinusoid_table ← assign_cols 0 sin sinusoid_table ;
  sinusoid_table ← assign_cols 1 cos sinusoid_table ;
  Ok sinusoid_table.
End SinusoidTable.

(** The entry as the specification words it: the sine at an even and the
    cosine at an odd column [j] of [position / T^(2*(j//2)/d_hid)]. *)
Definition sinusoid_entry (d_hid : Z) (T : R) (position : Z) (j : nat) : R :=
  let angle :=
    (IZR position / Rpower T (IZR (2 * (Z.of_nat j `div` 2)) / IZR d_hid))%R in
  if Nat.even j then sin angle else cos angle.

(** ** Python lists and loops *)

(** [l[i]]: a negative index counts from the end. *)
Definition py_index {A} (l : list A) (i : Z) : result A :=
  let n := Z.of_nat (length l) in
  let k := if i <? 0 then i + n else i in
  if (0 <=? k) && (k <? n) then
    match l !! Z.to_nat k with
    | Some x => Ok x
    | None => Raise IndexError
    end
  else Raise IndexError.

Definition py_len {A} (l : list A) : Z := Z.of_nat (length l).

(** [for x in xs: s = body(s, x)], stopping at the first exception. *)
Fixpoint for_each {A S} (xs : list A) (body : S → A → result S) (s : S)
  : result S :=
  match xs with
  | [] => Ok s
  | x :: xs' => s' ← body s x; for_each xs' body s'
  end.

(** [str] of an integer and [sep.join]. *)
Definition py_str (z : Z) : string := pretty z.
Definition py_join (sep : string) (l : list string) : string :=
  String.concat sep l.

(** ** torch layers

    A layer is kept as its constructor arguments; a normalisation layer
    also carries its [num_batches_tracked] buffer, which a forward call in
    training mode increments.  Weights are initialised at random by the
    library and no property below depends on them; likewise the
    [running_mean] and [running_var] buffers of a normalisation layer,
    which a forward call in training mode rewrites from the data, are not
    carried: a [Layer] stands for the layer up to its weights and running
    statistics, and what is stated about a model after a training-mode
    call speaks of architecture and batch counters only.  The constructors
    hand their sizes to the tensor allocator, which rejects a negative
    dimension. *)
Inductive Layer : Type :=
| Linear (in_features out_features : Z)
| BatchNorm1d (num_features : Z) (num_batches_tracked : nat)
| ReLU
| Conv1d (in_channels out_channels kernel_size padding : Z).

Definition nn_Linear (in_features out_features : Z) : result Layer :=
  if (in_features <? 0) || (out_features <? 0) then Raise RuntimeError
  else Ok (Linear in_features out_features).

Definition nn_BatchNorm1d (num_features : Z) : result Layer :=
  if num_features <? 0 then Raise RuntimeError
  else Ok (BatchNorm1d num_features 0).

Definition nn_ReLU : Layer := ReLU.

Definition nn_Conv1d (in_channels out_channels kernel_size padding : Z)
  : result Layer :=
  if (in_channels <? 0) || (out_channels <? 0) then Raise RuntimeError
  else Ok (Conv1d in_channels out_channels kernel_size padding).

(** ** get_decoder *)

Definition get_decoder (n_neurons : list Z) : result (list Layer) :=
  let layers := [] in
  layers ← for_each (py_range (py_len n_neurons - 1)) (λ layers i,
    n_i ← py_index n_neurons i;
    n_i1 ← py_index n_neurons (i + 1);
    lin ← nn_Linear n_i n_i1;
    let layers := layers ++ [lin] in
    if i <? py_len n_neurons - 2 then
      n_i1 ← py_index n_neurons (i + 1);
      bn ← nn_BatchNorm1d n_i1;
      Ok (layers ++ [bn; nn_ReLU])
    else Ok layers) layers;
  Ok layers.

(** ** The heap of Python list objects *)

Abbreviation loc := nat (only parsing).
Abbreviation heap := (gmap nat (list Z)) (only parsing).

(** A reference argument: [None] or a list object. *)
Inductive pyval : Set :=
| PyNone
| PyList (l : loc).

(** Computations that read and write the heap and may raise; what was
    written before an exception stays written. *)
Definition HeapM (A : Type) : Type := heap → heap * result A.

#[global] Instance HeapM_ret : MRet HeapM := λ A a h, (h, Ok a).
#[global] Instance HeapM_bind : MBind HeapM := λ A B k m h,
  match m h with
  | (h', Ok a) => k a h'
  | (h', Raise e) => (h', Raise e)
  end.

Definition lift {A} (r : result A) : HeapM A := λ h, (h, r).

Definition raise {A} (e : exn) : HeapM A := λ h, (h, Raise e).

(** The contents of a list object ([list(v)], [len(v)], [v[i]] all read
    them); [None] is not iterable.  A location outside the heap names no
    object; Python has no such reference, and the model gives it
    [RuntimeError]. *)
Definition list_items (v : pyval) : HeapM (list Z) := λ h,
  match v with
  | PyNone => (h, Raise TypeError)
  | PyList l =>
      match h !! l with
      | Some xs => (h, Ok xs)
      | None => (h, Raise RuntimeError)
      end
  end.

(** [copy.deepcopy]: [None] is returned as it is; a list of integers is
    copied into a new object. *)
Definition deepcopy (v : pyval) : HeapM pyval := λ h,
  match v with
  | PyNone => (h, Ok PyNone)
  | PyList l =>
      match h !! l with
      | Some xs => let l' := fresh (dom h) in (<[l' := xs]> h, Ok (PyList l'))
      | None => (h, Raise RuntimeError)
      end
  end.

(** [l.insert(0, x)] on a list object. *)
Definition insert0 (l : loc) (x : Z) : HeapM unit := λ h,
  match h !! l with
  | Some xs => (<[l := x :: xs]> h, Ok tt)
  | None => (h, Raise RuntimeError)
  end.

(** The attribute lookup [v.insert]: the bound method of a list; [None]
    has no such attribute.  It is evaluated before the call's
    arguments. *)
Definition getattr_insert (v : pyval) : HeapM (Z → HeapM unit) :=
  match v with
  | PyNone => raise AttributeError
  | PyList l => mret (insert0 l)
  end.

(** ** Tensors

    A tensor is its shape and its entries by index.  [LongTensor]s hold
    integers. *)
Record tensor3 : Type := {
  dim0 : nat; dim1 : nat; dim2 : nat;
  at3 : nat → nat → nat → R
}.

Record ltensor1 : Type := { llen : nat; lat1 : nat → Z }.
Record ltensor2 : Type := { ldim0 : nat; ldim1 : nat; lat2 : nat → nat → Z }.

(** [torch.arange(a, b)]. *)
Definition torch_arange (a b : Z) : ltensor1 :=
  {| llen := Z.to_nat (b - a); lat1 := λ i, a + Z.of_nat i |}.

(** Broadcasting of one dimension: equal sizes, or one of them is 1. *)
Definition bdim (m n : nat) : option nat :=
  if (m =? n)%nat then Some m
  else if (m =? 1)%nat then Some n
  else if (n =? 1)%nat then Some m
  else None.

Definition bidx (m i : nat) : nat := if (m =? 1)%nat then 0%nat else i.

(** [t.expand(b, l)] of a one-dimensional tensor. *)
Definition expand (t : ltensor1) (b l : nat) : result ltensor2 :=
  if (llen t =? l)%nat || (llen t =? 1)%nat then
    Ok {| ldim0 := b; ldim1 := l; lat2 := λ _ j, lat1 t (bidx (llen t) j) |}
  else Raise RuntimeError.

(** [x + y] on two three-dimensional tensors. *)
Definition tensor_add (x y : tensor3) : result tensor3 :=
  match bdim (dim0 x) (dim0 y), bdim (dim1 x) (dim1 y), bdim (dim2 x) (dim2 y) with
  | Some a, Some b, Some c =>
      Ok {| dim0 := a; dim1 := b; dim2 := c;
            at3 := λ i j k,
              (at3 x (bidx (dim0 x) i) (bidx (dim1 x) j) (bidx (dim2 x) k)
               + at3 y (bidx (dim0 y) i) (bidx (dim1 y) j) (bidx (dim2 y) k))%R |}
  | _, _, _ => Raise RuntimeError
  end.

(** ** nn.Embedding *)

Record Embedding : Type := {
  num_embeddings : nat;
  embedding_dim : nat;
  weight : list (list R)
}.

(** [nn.Embedding.from_pretrained] asserts that the table is
    two-dimensional. *)
Definition Embedding_from_pretrained (a : ndarray) : result Embedding :=
  match a with
  | Nd1 _ => Raise AssertionError
  | Nd2 n d m => Ok {| num_embeddings := n; embedding_dim := d; weight := m |}
  end.

Definition index_ok (e : Embedding) (i : Z) : bool :=
  (0 <=? i) && (i <? Z.of_nat (num_embeddings e)).

Definition weight_at (e : Embedding) (i : Z) (c : nat) : R :=
  nth c (nth (Z.to_nat i) (weight e) []) 0%R.

(** The lookup [e(idx)]: every index has to name a row of the table. *)
Definition Embedding_forward (e : Embedding) (idx : ltensor2) : result tensor3 :=
  if forallb (λ b, forallb (λ t, index_ok e (lat2 idx b t)) (seq 0 (ldim1 idx)))
       (seq 0 (ldim0 idx))
  then Ok {| dim0 := ldim0 idx; dim1 := ldim1 idx; dim2 := embedding_dim e;
             at3 := λ b t c, weight_at e (lat2 idx b t) c |}
  else Raise IndexError.

(** ** Layers on activations

    Past the position encoding only the shape of the data matters for the
    properties below, so the layers act on shapes.  [dense] records whether
    the trailing dimensions can be merged by [view] without a copy: the
    output of a convolution or of an affine layer can, a permuted view in
    general cannot. *)
Record activation : Type := { shape : list nat; dense : bool }.

Definition Linear_forward (in_features out_features : Z) (x : activation)
  : result activation :=
  match reverse (shape x) with
  | [] => Raise RuntimeError
  | k :: rest =>
      if Z.of_nat k =? in_features then
        Ok {| shape := reverse rest ++ [Z.to_nat out_features]; dense := true |}
      else Raise RuntimeError
  end.

(** Output length of a convolution of stride 1 over [l] time steps; the
    padded input has to hold one kernel. *)
Definition conv_out_len (kernel_size padding : Z) (l : nat) : result nat :=
  if kernel_size <=? Z.of_nat l + 2 * padding then
    Ok (Z.to_nat (Z.of_nat l + 2 * padding - kernel_size + 1))
  else Raise RuntimeError.

(** A convolution takes (B, C, L) or (C, L) with [C = in_channels]; its
    weight needs at least one output channel (one per group, and there is
    one group). *)
Definition Conv1d_forward (in_channels out_channels kernel_size padding : Z)
    (x : activation) : result activation :=
  match shape x with
  | [b; c; l] =>
      if (Z.of_nat c =? in_channels) && (1 <=? out_channels) then
        l' ← conv_out_len kernel_size padding l;
        Ok {| shape := [b; Z.to_nat out_channels; l']; dense := true |}
      else Raise RuntimeError
  | [c; l] =>
      if (Z.of_nat c =? in_channels) && (1 <=? out_channels) then
        l' ← conv_out_len kernel_size padding l;
        Ok {| shape := [Z.to_nat out_channels; l']; dense := true |}
      else Raise RuntimeError
  | _ => Raise RuntimeError
  end.

(** Batch normalisation takes (B, C) or (B, C, L).  In training mode it
    first counts the batch, then refuses a single value per channel; the
    channel count has to be [num_features]. *)
Definition BatchNorm1d_forward (training : bool) (num_features : Z)
    (num_batches_tracked : nat) (x : activation) : Layer * result activation :=
  let run (b c l : nat) :=
    let tracked := if training then S num_batches_tracked
                   else num_batches_tracked in
    (BatchNorm1d num_features tracked,
     if training && (b * l =? 1)%nat then Raise ValueError
     else if Z.of_nat c =? num_features then Ok x
     else Raise RuntimeError) in
  match shape x with
  | [b; c] => run b c 1%nat
  | [b; c; l] => run b c l
  | _ => (BatchNorm1d num_features num_batches_tracked, Raise ValueError)
  end.

Definition Layer_forward (training : bool) (l : Layer) (x : activation)
  : Layer * result activation :=
  match l with
  | Linear i o => (l, Linear_forward i o x)
  | BatchNorm1d n k => BatchNorm1d_forward training n k x
  | ReLU => (l, Ok x)
  | Conv1d ci co k p => (l, Conv1d_forward ci co k p x)
  end.

(** [nn.Sequential]: the layers in order; an exception leaves the layers
    after it untouched. *)
Fixpoint Sequential_forward (training : bool) (ls : list Layer) (x : activation)
  : list Layer * result activation :=
  match ls with
  | [] => ([], Ok x)
  | l :: ls' =>
      match Layer_forward training l x with
      | (l', Ok y) =>
          let '(ls'', r) := Sequential_forward training ls' y in (l' :: ls'', r)
      | (l', Raise e) => (l' :: ls', Raise e)
      end
  end.

(** [x.permute(0, 2, 1)] of a contiguous batch: the swapped dimensions can
    be merged again only when one of them has at most one entry. *)
Definition permute_0_2_1 (x : tensor3) : activation :=
  {| shape := [dim0 x; dim2 x; dim1 x];
     dense := (dim2 x <=? 1)%nat || (dim1 x <=? 1)%nat |}.

(** [out.view(out.shape[0], -1)]: with no row the size behind [-1] is
    ambiguous. *)
Definition view_rows (out : activation) : result activation :=
  match shape out with
  | [] => Raise IndexError
  | b :: rest =>
      if (b =? 0)%nat then Raise RuntimeError
      else if dense out then
        Ok {| shape := [b; foldr Nat.mul 1%nat rest]; dense := true |}
      else Raise RuntimeError
  end.

(** ** TempConv *)

Record TempConv : Type := {
  input_size : Z;
  seq_len : Z;
  name : string;
  nker : pyval;
  nfc : pyval;
  decoder : list Layer;
  conv1d : list Layer;
  linear : list Layer;
  position_enc : option Embedding;
  training : bool
}.

(** The convolution and fully-connected loops of the constructor, over the
    widths read from [self.nker] and [self.nfc] after the insertion (the
    loops do not change the lists). *)
Definition conv_layers_of (nker : list Z) : result (list Layer) :=
  for_each (py_range (py_len nker - 1)) (λ conv_layers i,
    n_i ← py_index nker i;
    n_i1 ← py_index nker (i + 1);
    conv ← nn_Conv1d n_i n_i1 3 1;
    n_i1 ← py_index nker (i + 1);
    bn ← nn_BatchNorm1d n_i1;
    Ok (conv_layers ++ [conv; bn; nn_ReLU])) [].

Definition lin_layers_of (nfc : list Z) : result (list Layer) :=
  for_each (py_range (py_len nfc - 1)) (λ lin_layers i,
    n_i ← py_index nfc i;
    n_i1 ← py_index nfc (i + 1);
    lin ← nn_Linear n_i n_i1;
    n_i1 ← py_index nfc (i + 1);
    bn ← nn_BatchNorm1d n_i1;
    Ok (lin_layers ++ [lin; bn; nn_ReLU])) [].

(** Lines 93-98: the frozen lookup table, when [positions] is given. *)
Definition position_enc_of (input_size : Z) (positions : option positions_arg)
  : result (option Embedding) :=
  match positions with
  | Some positions =>
      table ← get_sinusoid_encoding_table input_size 1000 positions;
      enc ← Embedding_from_pretrained table;
      Ok (Some enc)
  | None => Ok None
  end.

(** Lines 60-71 of [TempConv.__init__]: the copies of the two width lists,
    the name and the decoder.  [nker] and [nfc] are references to the
    caller's objects; [mlp4] is only read. *)
Definition TempConv_init_head (nker : loc) (nfc : pyval) (mlp4 : list Z)
  : HeapM (pyval * pyval * string * list Layer) :=
  let name := "TempCNN_" in
  self_nker ← deepcopy (PyList nker);
  self_nfc ← deepcopy nfc;
  ks ← list_items self_nker;
  let name := name +:+ py_join "|" (py_str <$> ks) in
  decoder ← lift (get_decoder mlp4);
  name ← match self_nfc with
         | PyNone => mret name
         | PyList _ =>
             let name := name +:+ "FC" in
             fs ← list_items self_nfc;
             mret (name +:+ py_join "|" (py_str <$> fs))
         end;
  mret (self_nker, self_nfc, name, decoder).

(** [TempConv.__init__]: the head above, then lines 73-98.  The two loops
    read the widths once, after the insertion. *)
Definition TempConv_init (input_size : Z) (nker : loc) (seq_len : Z)
    (nfc : pyval) (mlp4 : list Z) (positions : option positions_arg)
  : HeapM TempConv :=
  '(self_nker, self_nfc, name, decoder) ← TempConv_init_head nker nfc mlp4;
  insert ← getattr_insert self_nker;
  insert input_size;;
  ks ← list_items self_nker;
  conv1d ← lift (conv_layers_of ks);
  insert ← getattr_insert self_nfc;
  last ← lift (py_index ks (-1));
  insert (last * seq_len);;
  fs ← list_items self_nfc;
  linear ← lift (lin_layers_of fs);
  position_enc ← lift (position_enc_of input_size positions);
  mret {| input_size := input_size; seq_len := seq_len; name := name;
          nker := self_nker; nfc := self_nfc; decoder := decoder;
          conv1d := conv1d; linear := linear; position_enc := position_enc;
          training := true |}.

(** [nn.Module.train(mode)]; [eval()] is [train(False)]. *)
Definition train (mode : bool) (self : TempConv) : TempConv :=
  {| input_size := input_size self; seq_len := seq_len self; name := name self;
     nker := nker self; nfc := nfc self; decoder := decoder self;
     conv1d := conv1d self; linear := linear self;
     position_enc := position_enc self; training := mode |}.

Definition set_conv1d (ls : list Layer) (self : TempConv) : TempConv :=
  {| input_size := input_size self; seq_len := seq_len self; name := name self;
     nker := nker self; nfc := nfc self; decoder := decoder self;
     conv1d := ls; linear := linear self;
     position_enc := position_enc self; training := training self |}.

Definition set_linear (ls : list Layer) (self : TempConv) : TempConv :=
  {| input_size := input_size self; seq_len := seq_len self; name := name self;
     nker := nker self; nfc := nfc self; decoder := decoder self;
     conv1d := conv1d self; linear := ls;
     position_enc := position_enc self; training := training self |}.

Definition set_decoder (ls : list Layer) (self : TempConv) : TempConv :=
  {| input_size := input_size self; seq_len := seq_len self; name := name self;
     nker := nker self; nfc := nfc self; decoder := ls;
     conv1d := conv1d self; linear := linear self;
     position_enc := position_enc self; training := training self |}.

(** ** TempConv.forward *)

(** The index tensor [src_pos]: every sample gets the indices 1..seq_len,
    with [seq_len] read from the input. *)
Definition src_pos (sz_b seq_len : nat) : result ltensor2 :=
  expand (torch_arange 1 (Z.of_nat seq_len + 1)) sz_b seq_len.

(** Lines 101-106: the input with, when enabled, the position encoding
    added. *)
Definition enc_output (self : TempConv) (input : tensor3) : result tensor3 :=
  let sz_b := dim0 input in
  let seq_len := dim1 input in
  match position_enc self with
  | Some position_enc =>
      src_pos ← src_pos sz_b seq_len;
      pos ← Embedding_forward position_enc src_pos;
      tensor_add input pos
  | None => Ok input
  end.

(** One of the three stacks applied to [x]; the stack's layers are written
    back, so that what a failing call has already updated stays
    updated. *)
Definition run_stack (get : TempConv → list Layer)
    (set : list Layer → TempConv → TempConv) (x : activation) (self : TempConv)
  : TempConv * result activation :=
  let '(ls, r) := Sequential_forward (training self) (get self) x in
  (set ls self, r).

(** Lines 108-112. *)
Definition forward_stacks (self : TempConv) (enc_output : tensor3)
  : TempConv * result activation :=
  match run_stack conv1d set_conv1d (permute_0_2_1 enc_output) self with
  | (self, Raise e) => (self, Raise e)
  | (self, Ok out) =>
      match view_rows out with
      | Raise e => (self, Raise e)
      | Ok out =>
          match run_stack linear set_linear out self with
          | (self, Raise e) => (self, Raise e)
          | (self, Ok out) => run_stack decoder set_decoder out self
          end
      end
  end.

Definition forward (self : TempConv) (input : tensor3)
  : TempConv * result activation :=
  match enc_output self input with
  | Raise e => (self, Raise e)
  | Ok enc_output => forward_stacks self enc_output
  end.

(** ** Closed forms the properties are stated with *)

Definition width_at (ws : list Z) (i : nat) : Z := nth i ws 0.

(** Block [i] of the decoder: the affine layer from width [i] to width
    [i+1], followed by normalisation and nonlinearity unless it is the
    last one. *)
Definition decoder_block (ws : list Z) (i : nat) : list Layer :=
  Linear (width_at ws i) (width_at ws (S i)) ::
  (if (i <? length ws - 2)%nat
   then [BatchNorm1d (width_at ws (S i)) 0; ReLU] else []).

Definition conv_block (ws : list Z) (i : nat) : list Layer :=
  [Conv1d (width_at ws i) (width_at ws (S i)) 3 1;
   BatchNorm1d (width_at ws (S i)) 0; ReLU].

Definition lin_block (ws : list Z) (i : nat) : list Layer :=
  [Linear (width_at ws i) (width_at ws (S i));
   BatchNorm1d (width_at ws (S i)) 0; ReLU].

Definition is_Linear (l : Layer) : bool :=
  match l with Linear _ _ => true | _ => false end.

Definition is_Conv1d (l : Layer) : bool :=
  match l with Conv1d _ _ _ _ => true | _ => false end.

(** The last width of a non-empty width list. *)
Definition last_width (ws : list Z) : Z := List.last ws 0.

(** The objects the constructor allocates and the heap it leaves: the copy
    of [nker] is allocated first, the copy of [nfc] second, and one width
    is inserted in front of each copy. *)
Definition nker_copy (h : gmap nat (list Z)) : nat := fresh (dom h).

Definition nfc_copy (h : gmap nat (list Z)) (nk : list Z) : nat :=
  fresh (dom (<[nker_copy h := nk]> h)).

Definition heap_copied (h : gmap nat (list Z)) (nk nf : list Z)
  : gmap nat (list Z) :=
  <[nfc_copy h nk := nf]> (<[nker_copy h := nk]> h).

Definition fc_widths (input_size seq_len : Z) (nk nf : list Z) : list Z :=
  last_width (input_size :: nk) * seq_len :: nf.

Definition heap_built (h : gmap nat (list Z)) (input_size seq_len : Z)
    (nk nf : list Z) : gmap nat (list Z) :=
  <[nfc_copy h nk := fc_widths input_size seq_len nk nf]>
    (<[nker_copy h := input_size :: nk]> (heap_copied h nk nf)).

(** Two models have the same architecture when they agree up to the batch
    counters of their normalisation layers and the training flag: forward
    calls and [train] change nothing else. *)
Definition erase (l : Layer) : Layer :=
  match l with
  | BatchNorm1d n _ => BatchNorm1d n 0
  | _ => l
  end.

Definition same_arch (m m0 : TempConv) : Prop :=
  position_enc m = position_enc m0
  ∧ erase <$> conv1d m = erase <$> conv1d m0
  ∧ erase <$> linear m = erase <$> linear m0
  ∧ erase <$> decoder m = erase <$> decoder m0.

(** ** A concrete configuration

    The caller's heap holds [nker = [8, 16]] at location 0 and
    [nfc = [32]] at location 1; the model has 4 input channels, sequence
    length 5 and decoder widths [32, 10, 3]. *)
Definition caller_heap : gmap nat (list Z) :=
  <[1%nat := [32]]> (<[0%nat := [8; 16]]> ∅).

(** The same heap with an empty [nker] at location 2 and an empty [nfc]
    at location 3. *)
Definition caller_heap_empty : gmap nat (list Z) :=
  <[3%nat := []]> (<[2%nat := []]> caller_heap).

Definition zeros (b l c : nat) : tensor3 :=
  {| dim0 := b; dim1 := l; dim2 := c; at3 := λ _ _ _, 0%R |}.

(** What a forward call in training mode does to what the model carries
    of a layer it runs through: a normalisation layer counts one more
    batch. *)
Definition bump (l : Layer) : Layer :=
  match l with
  | BatchNorm1d n k => BatchNorm1d n (S k)
  | _ => l
  end.

(** The [num_batches_tracked] buffers of the normalisation layers of a
    stack, in layer order. *)
Definition tracked (l : Layer) : option nat :=
  match l with
  | BatchNorm1d _ k => Some k
  | _ => None
  end.

Definition batches_tracked (ls : list Layer) : list nat := omap tracked ls.



(* ================================================================== *)
(** * Properties *)

(** ** Models of one architecture *)

Lemma same_arch_refl (m : TempConv) : same_arch m m.
Proof. by repeat split. Qed.

Lemma same_arch_trans (m1 m2 m3 : TempConv) :
  same_arch m1 m2 → same_arch m2 m3 → same_arch m1 m3.
Proof.
  intros (? & ? & ? & ?) (? & ? & ? & ?). repeat split; congruence.
Qed.

Lemma train_same_arch (mode : bool) (m : TempConv) : same_arch (train mode m) m.
Proof. by repeat split. Qed.

(** ** Results and loops *)

Lemma result_bind_Ok {A B} (a : A) (k : A → result B) : (Ok a ≫= k) = k a.
Proof. reflexivity. Qed.

Lemma for_each_blocks {A B} (xs : list A) (body : list B → A → result (list B))
    (blk : A → list B) (acc : list B) :
  (∀ acc x, x ∈ xs → body acc x = Ok (acc ++ blk x)) →
  for_each xs body acc = Ok (acc ++ mjoin (blk <$> xs)).
Proof.
  revert acc. induction xs as [|x xs IH]; intros acc Hbody; simpl.
  - by rewrite app_nil_r.
  - rewrite (Hbody acc x) by left. simpl.
    rewrite IH; [by rewrite <- app_assoc|].
    intros acc' y Hy. apply Hbody. by right.
Qed.

Lemma py_index_nat {A} (l : list A) (i : nat) (x : A) :
  l !! i = Some x → py_index l (Z.of_nat i) = Ok x.
Proof.
  intros Hx. pose proof (lookup_lt_Some _ _ _ Hx) as Hlt.
  unfold py_index. rewrite (proj2 (Z.ltb_ge _ _)) by lia.
  rewrite (proj2 (Z.leb_le _ _)) by lia.
  rewrite (proj2 (Z.ltb_lt _ _)) by lia. simpl.
  by rewrite Nat2Z.id, Hx.
Qed.

Lemma py_index_width (ws : list Z) (i : nat) :
  (i < length ws)%nat → py_index ws (Z.of_nat i) = Ok (width_at ws i).
Proof.
  intros Hi. apply py_index_nat. unfold width_at.
  destruct (lookup_lt_is_Some_2 ws i Hi) as [x Hx].
  rewrite Hx. f_equal. symmetry. by apply nth_lookup_Some.
Qed.

Lemma py_index_last (ws : list Z) :
  ws ≠ [] → py_index ws (-1) = Ok (last_width ws).
Proof.
  destruct ws as [|x ws' _] using rev_ind; [done|]. intros _.
  unfold py_index, last_width. rewrite List.last_last, length_app. simpl.
  replace (-1 + Z.of_nat (length ws' + 1)) with (Z.of_nat (length ws')) by lia.
  rewrite (proj2 (Z.leb_le _ _)) by lia.
  rewrite (proj2 (Z.ltb_lt _ _)) by lia. simpl.
  by rewrite Nat2Z.id, list_lookup_middle.
Qed.

Lemma width_at_pos (ws : list Z) (i : nat) :
  Forall (λ w, 0 < w) ws → (i < length ws)%nat → 0 < width_at ws i.
Proof.
  intros Hall Hi. destruct (lookup_lt_is_Some_2 ws i Hi) as [x Hx].
  unfold width_at. rewrite (nth_lookup_Some _ _ _ _ Hx).
  by apply (Forall_lookup_1 _ _ _ _ Hall Hx).
Qed.

Lemma nn_Linear_ok (a b : Z) : 0 ≤ a → 0 ≤ b → nn_Linear a b = Ok (Linear a b).
Proof.
  intros Ha Hb. unfold nn_Linear.
  by rewrite (proj2 (Z.ltb_ge _ _) Ha), (proj2 (Z.ltb_ge _ _) Hb).
Qed.

Lemma nn_Conv1d_ok (a b k p : Z) :
  0 ≤ a → 0 ≤ b → nn_Conv1d a b k p = Ok (Conv1d a b k p).
Proof.
  intros Ha Hb. unfold nn_Conv1d.
  by rewrite (proj2 (Z.ltb_ge _ _) Ha), (proj2 (Z.ltb_ge _ _) Hb).
Qed.

Lemma nn_BatchNorm1d_ok (n : Z) : 0 ≤ n → nn_BatchNorm1d n = Ok (BatchNorm1d n 0).
Proof.
  intros Hn. unfold nn_BatchNorm1d. by rewrite (proj2 (Z.ltb_ge _ _) Hn).
Qed.

(** ** The three layer loops in closed form *)

Lemma py_range_len_pred {A} (ws : list A) (d : Z) :
  0 < d → py_range (py_len ws - d) = Z.of_nat <$> seq 0 (length ws - Z.to_nat d).
Proof.
  intros Hd. unfold py_range, py_len. do 2 f_equal. lia.
Qed.

Lemma mjoin_fmap_of_nat {B} (f : nat → list B) (ns : list nat) :
  mjoin ((λ i : Z, f (Z.to_nat i)) <$> (Z.of_nat <$> ns)) = mjoin (f <$> ns).
Proof.
  f_equal. rewrite <- list_fmap_compose. apply list_fmap_ext.
  intros _ n _. simpl. by rewrite Nat2Z.id.
Qed.

Lemma get_decoder_blocks (ws : list Z) :
  Forall (λ w, 0 < w) ws →
  get_decoder ws = Ok (mjoin (decoder_block ws <$> seq 0 (length ws - 1))).
Proof.
  intros Hpos. unfold get_decoder.
  rewrite (py_range_len_pred ws 1) by lia.
  rewrite (for_each_blocks _ _ (λ i, decoder_block ws (Z.to_nat i))).
  - simpl. by rewrite mjoin_fmap_of_nat.
  - intros acc i [k [-> Hk]]%list_elem_of_fmap. apply elem_of_seq in Hk.
    rewrite Nat2Z.id.
    replace (Z.of_nat k + 1) with (Z.of_nat (S k)) by lia.
    rewrite !py_index_width by lia. simpl.
    pose proof (width_at_pos ws k Hpos ltac:(lia)).
    pose proof (width_at_pos ws (S k) Hpos ltac:(lia)).
    rewrite nn_Linear_ok by lia. simpl.
    unfold decoder_block, py_len.
    destruct (k <? length ws - 2)%nat eqn:Hlast.
    + apply Nat.ltb_lt in Hlast.
      rewrite (proj2 (Z.ltb_lt _ _)) by lia.
      simpl. rewrite nn_BatchNorm1d_ok by lia. simpl.
      by rewrite <- app_assoc.
    + apply Nat.ltb_ge in Hlast.
      by rewrite (proj2 (Z.ltb_ge _ _)) by lia.
Qed.

Lemma conv_layers_of_blocks (ws : list Z) :
  Forall (λ w, 0 < w) ws →
  conv_layers_of ws = Ok (mjoin (conv_block ws <$> seq 0 (length ws - 1))).
Proof.
  intros Hpos. unfold conv_layers_of.
  rewrite (py_range_len_pred ws 1) by lia.
  rewrite (for_each_blocks _ _ (λ i, conv_block ws (Z.to_nat i))).
  - simpl. by rewrite mjoin_fmap_of_nat.
  - intros acc i [k [-> Hk]]%list_elem_of_fmap. apply elem_of_seq in Hk.
    rewrite Nat2Z.id.
    replace (Z.of_nat k + 1) with (Z.of_nat (S k)) by lia.
    rewrite !py_index_width by lia. simpl.
    pose proof (width_at_pos ws k Hpos ltac:(lia)).
    pose proof (width_at_pos ws (S k) Hpos ltac:(lia)).
    rewrite nn_Conv1d_ok by lia. simpl.
    by rewrite nn_BatchNorm1d_ok by lia.
Qed.

Lemma lin_layers_of_blocks (ws : list Z) :
  Forall (λ w, 0 < w) ws →
  lin_layers_of ws = Ok (mjoin (lin_block ws <$> seq 0 (length ws - 1))).
Proof.
  intros Hpos. unfold lin_layers_of.
  rewrite (py_range_len_pred ws 1) by lia.
  rewrite (for_each_blocks _ _ (λ i, lin_block ws (Z.to_nat i))).
  - simpl. by rewrite mjoin_fmap_of_nat.
  - intros acc i [k [-> Hk]]%list_elem_of_fmap. apply elem_of_seq in Hk.
    rewrite Nat2Z.id.
    replace (Z.of_nat k + 1) with (Z.of_nat (S k)) by lia.
    rewrite !py_index_width by lia. simpl.
    pose proof (width_at_pos ws k Hpos ltac:(lia)).
    pose proof (width_at_pos ws (S k) Hpos ltac:(lia)).
    rewrite nn_Linear_ok by lia. simpl.
    by rewrite nn_BatchNorm1d_ok by lia.
Qed.









Lemma filter_mjoin_fmap {A B} (P : B → bool) (f : A → list B) (xs : list A) :
  List.filter P (mjoin (f <$> xs)) = mjoin ((λ x, List.filter P (f x)) <$> xs).
Proof.
  induction xs as [|x xs IH]; [done|].
  change (mjoin (f <$> x :: xs)) with (f x ++ mjoin (f <$> xs)).
  rewrite List.filter_app, IH. reflexivity.
Qed.

Lemma mjoin_singletons {A B} (g : A → B) (xs : list A) :
  mjoin ((λ x, [g x]) <$> xs) = g <$> xs.
Proof.
  induction xs as [|x xs IH]; [done|].
  change (mjoin ((λ x, [g x]) <$> x :: xs))
    with (g x :: mjoin ((λ x, [g x]) <$> xs)).
  rewrite IH. reflexivity.
Qed.

Lemma decoder_blocks_split (ws : list Z) :
  (2 ≤ length ws)%nat →
  mjoin (decoder_block ws <$> seq 0 (length ws - 1))
  = mjoin (lin_block ws <$> seq 0 (length ws - 2))
    ++ [Linear (width_at ws (length ws - 2)) (width_at ws (length ws - 1))].
Proof.
  intros Hlen.
  replace (length ws - 1)%nat with (S (length ws - 2)) by lia.
  rewrite seq_S, fmap_app, join_app. simpl. f_equal.
  - f_equal. apply list_fmap_ext. intros k i [-> Hk]%lookup_seq.
    unfold decoder_block, lin_block.
    by rewrite (proj2 (Nat.ltb_lt _ _)) by lia.
  - unfold decoder_block. rewrite Nat.ltb_irrefl. simpl.
    by replace (S (length ws - 2)) with (length ws - 1)%nat by lia.
Qed.

(** C2. For a width list of length L >= 2 (positive widths), get_decoder
    returns the blocks (affine, normalisation over the output width,
    ReLU) for the first L-2 adjacent pairs, then the bare affine layer
    for the last pair; its affine layers are exactly the L-1 layers from
    width i to width i+1. *)
Theorem C2_get_decoder_structure (n_neurons : list Z) :
  (2 ≤ length n_neurons)%nat →
  Forall (λ w, 0 < w) n_neurons →
  let L := length n_neurons in
  ∃ layers,
    get_decoder n_neurons = Ok layers
    ∧ layers = mjoin (lin_block n_neurons <$> seq 0 (L - 2))
               ++ [Linear (width_at n_neurons (L - 2)) (width_at n_neurons (L - 1))]
    ∧ List.filter is_Linear layers
      = (λ i, Linear (width_at n_neurons i) (width_at n_neurons (S i)))
          <$> seq 0 (L - 1)
    ∧ length (List.filter is_Linear layers) = (L - 1)%nat.
Proof.
  intros Hlen Hpos L. subst L. eexists. split; [by apply get_decoder_blocks|].
  split; [by apply decoder_blocks_split|].
  assert (List.filter is_Linear
            (mjoin (decoder_block n_neurons <$> seq 0 (length n_neurons - 1)))
          = (λ i, Linear (width_at n_neurons i) (width_at n_neurons (S i)))
              <$> seq 0 (length n_neurons - 1)) as Hfilter.
  { rewrite filter_mjoin_fmap.
    rewrite <- (mjoin_singletons
      (λ i, Linear (width_at n_neurons i) (width_at n_neurons (S i)))).
    f_equal.
    apply list_fmap_ext. intros _ i _. unfold decoder_block. simpl.
    by destruct (i <? length n_neurons - 2)%nat. }
  split; [done|]. by rewrite Hfilter, length_fmap, length_seq.
Qed.

Lemma C2_get_decoder_structure_witness :
  ∃ layers,
    get_decoder [32; 10; 3] = Ok layers
    ∧ layers = [Linear 32 10; BatchNorm1d 10 0; ReLU; Linear 10 3]
    ∧ List.filter is_Linear layers = [Linear 32 10; Linear 10 3]
    ∧ length (List.filter is_Linear layers) = 2%nat.
Proof.
  apply (C2_get_decoder_structure [32; 10; 3]).
  - simpl. lia.
  - repeat constructor.
Defined.

(** ** The sinusoid table *)

Lemma mod2_even (j : nat) : (j `mod` 2 =? 0)%nat = Nat.even j.
Proof.
  destruct (Nat.even j) eqn:E.
  - apply Nat.even_spec in E as [k ->]. apply Nat.eqb_eq.
    rewrite Nat.mul_comm. apply Nat.Div0.mod_mul.
  - apply Nat.eqb_neq. intros Hmod.
    assert (Nat.even j = true) as E'; [|congruence].
    apply Nat.even_spec. exists (j `div` 2)%nat.
    rewrite (Nat.div_mod_eq j 2) at 1. lia.
Qed.

Lemma in_slice_even (j : nat) : in_slice 0 2 j = Nat.even j.
Proof. unfold in_slice. rewrite Nat.sub_0_r, mod2_even. reflexivity. Qed.

Lemma in_slice_odd (j : nat) : in_slice 1 2 j = negb (Nat.even j).
Proof.
  unfold in_slice. destruct j as [|k]; [done|].
  simpl (1 <=? S k)%nat. cbv iota.
  replace (S k - 1)%nat with k by lia.
  rewrite mod2_even, Nat.even_succ, <- Nat.negb_even.
  by destruct (Nat.even k).
Qed.

Lemma length_get_posi_angle_vec (d_hid : Z) (T : R) (pos : Z) :
  length (get_posi_angle_vec d_hid T pos) = Z.to_nat d_hid.
Proof.
  unfold get_posi_angle_vec, py_range.
  by rewrite length_map, length_fmap, length_seq.
Qed.

(** A row after the two slice assignments holds the sine at the even and
    the cosine at the odd columns. *)
Lemma sinusoid_row_lookup (d_hid : Z) (T : R) (pos : Z) (j : nat) :
  (j < Z.to_nat d_hid)%nat →
  imap (λ j x, if in_slice 1 2 j then cos x else x)
    (imap (λ j x, if in_slice 0 2 j then sin x else x)
       (get_posi_angle_vec d_hid T pos)) !! j
  = Some (sinusoid_entry d_hid T pos j).
Proof.
  intros Hj. rewrite !list_lookup_imap.
  unfold get_posi_angle_vec, py_range.
  change (map (cal_angle d_hid T pos)) with (fmap (M:=list) (cal_angle d_hid T pos)).
  rewrite !list_lookup_fmap, (lookup_seq_lt 0 _ j Hj). simpl.
  rewrite in_slice_even, in_slice_odd. unfold sinusoid_entry, cal_angle.
  by destruct (Nat.even j).
Qed.

Lemma sinusoid_entry_0 (d_hid : Z) (T : R) (j : nat) :
  sinusoid_entry d_hid T 0 j = if Nat.even j then 0%R else 1%R.
Proof.
  unfold sinusoid_entry. unfold Rdiv. rewrite Rmult_0_l.
  destruct (Nat.even j); [apply sin_0 | apply cos_0].
Qed.

Lemma np_array_rows (d_hid : Z) (T : R) (ps : list Z) :
  ps ≠ [] →
  np_array (map (get_posi_angle_vec d_hid T) ps)
  = Nd2 (length ps) (Z.to_nat d_hid) (map (get_posi_angle_vec d_hid T) ps).
Proof.
  destruct ps as [|p0 ps']; [done|]. intros _. simpl.
  by rewrite length_map, length_get_posi_angle_vec.
Qed.

Lemma get_sinusoid_encoding_table_shape (d_hid : Z) (T : R)
    (positions : positions_arg) :
  positions_list positions ≠ [] →
  ∃ m, get_sinusoid_encoding_table d_hid T positions
       = Ok (Nd2 (length (positions_list positions)) (Z.to_nat d_hid) m).
Proof.
  intros Hne. unfold get_sinusoid_encoding_table.
  rewrite np_array_rows by done. simpl. by eexists.
Qed.

(** C1, as the code has it: positions must not be empty, and the power
    T^(2*(j//2)/hidden_dim) is a number for a positive base.  For a
    positive hidden_dim, a positive frequency base and a non-empty
    positions argument the table has shape (len(positions), hidden_dim);
    the entry at row p and column j is the sine (j even) or cosine (j odd)
    of pos_p / T^(2*(j//2)/hidden_dim); the row of position 0 alternates
    0, 1. *)
Theorem C1_sinusoid_table (d_hid : Z) (T : R) (positions : positions_arg) :
  0 < d_hid →
  (0 < T)%R →
  positions_list positions ≠ [] →
  let ps := positions_list positions in
  ∃ m,
    get_sinusoid_encoding_table d_hid T positions
    = Ok (Nd2 (length ps) (Z.to_nat d_hid) m)
    ∧ length m = length ps
    ∧ ∀ p pos, ps !! p = Some pos →
        ∃ row, m !! p = Some row
          ∧ length row = Z.to_nat d_hid
          ∧ (∀ j, (j < Z.to_nat d_hid)%nat →
               row !! j = Some (sinusoid_entry d_hid T pos j))
          ∧ (pos = 0 → ∀ j, (j < Z.to_nat d_hid)%nat →
               row !! j = Some (if Nat.even j then 0%R else 1%R)).
Proof.
  intros _ _ Hne ps. unfold get_sinusoid_encoding_table. fold ps.
  rewrite np_array_rows by done.
  simpl. eexists. split; [reflexivity|]. split; [by rewrite !length_map|].
  intros p pos Hp.
  exists (imap (λ j x, if in_slice 1 2 j then cos x else x)
            (imap (λ j x, if in_slice 0 2 j then sin x else x)
               (get_posi_angle_vec d_hid T pos))).
  split.
  { change map with (@fmap list _).
    by rewrite !list_lookup_fmap, Hp. }
  split; [by rewrite !length_imap, length_get_posi_angle_vec|].
  split; [intros j Hj; by apply sinusoid_row_lookup|].
  intros -> j Hj. rewrite sinusoid_row_lookup by done.
  by rewrite sinusoid_entry_0.
Qed.

Lemma C1_sinusoid_table_witness :
  ∃ m,
    get_sinusoid_encoding_table 4 1000 (PInt 2) = Ok (Nd2 2 4 m)
    ∧ length m = 2%nat
    ∧ ∀ p pos, [0; 1] !! p = Some pos →
        ∃ row, m !! p = Some row
          ∧ length row = 4%nat
          ∧ (∀ j, (j < 4)%nat → row !! j = Some (sinusoid_entry 4 1000 pos j))
          ∧ (pos = 0 → ∀ j, (j < 4)%nat →
               row !! j = Some (if Nat.even j then 0%R else 1%R)).
Proof.
  apply (C1_sinusoid_table 4 1000 (PInt 2)).
  - lia.
  - apply (IZR_lt 0 1000). lia.
  - discriminate.
Defined.

(** With no position the array built from the rows is one-dimensional,
    and the column slice raises. *)
Lemma C1_counterexample :
  get_sinusoid_encoding_table 2 1000 (PInt 0) = Raise IndexError
  ∧ get_sinusoid_encoding_table 2 1000 (PList []) = Raise IndexError.
Proof. split; reflexivity. Qed.

(** ** The constructor, step by step *)

Lemma fresh_lookup (h : gmap nat (list Z)) : h !! fresh (dom h) = None.
Proof. apply not_elem_of_dom, is_fresh. Qed.

Lemma fresh_ne (h : gmap nat (list Z)) (l : nat) (v : list Z) :
  h !! l = Some v → fresh (dom h) ≠ l.
Proof. intros Hl Heq. pose proof (fresh_lookup h) as Hn. congruence. Qed.

Lemma nker_copy_fresh (h : gmap nat (list Z)) : h !! nker_copy h = None.
Proof. apply fresh_lookup. Qed.

Lemma nfc_copy_fresh (h : gmap nat (list Z)) (nk : list Z) :
  h !! nfc_copy h nk = None ∧ nfc_copy h nk ≠ nker_copy h.
Proof.
  pose proof (fresh_lookup (<[nker_copy h := nk]> h)) as Hn.
  fold (nfc_copy h nk) in Hn.
  apply lookup_insert_None in Hn as [Hn Hne]. split; [done | congruence].
Qed.

Lemma TempConv_init_head_list (h : gmap nat (list Z)) pk pf mlp4 nk nf :
  h !! pk = Some nk → h !! pf = Some nf →
  TempConv_init_head pk (PyList pf) mlp4 h
  = match get_decoder mlp4 with
    | Raise e => (heap_copied h nk nf, Raise e)
    | Ok dec =>
        (heap_copied h nk nf,
         Ok (PyList (nker_copy h), PyList (nfc_copy h nk),
             (("TempCNN_" +:+ py_join "|" (py_str <$> nk)) +:+ "FC")
               +:+ py_join "|" (py_str <$> nf),
             dec))
    end.
Proof.
  intros Hk Hf.
  destruct (nfc_copy_fresh h nk) as [Hfr Hne].
  assert (<[nker_copy h := nk]> h !! pf = Some nf) as H1f.
  { rewrite lookup_insert_ne; [done|]. by eapply fresh_ne. }
  assert (heap_copied h nk nf !! nker_copy h = Some nk) as H2.
  { unfold heap_copied. rewrite lookup_insert_ne by done. apply lookup_insert_eq. }
  assert (heap_copied h nk nf !! nfc_copy h nk = Some nf) as H2f
    by apply lookup_insert_eq.
  unfold TempConv_init_head.
  unfold mbind, HeapM_bind, deepcopy at 1. rewrite Hk. fold (nker_copy h).
  unfold deepcopy. rewrite H1f. fold (nfc_copy h nk) (heap_copied h nk nf).
  unfold list_items at 1. rewrite H2.
  unfold lift at 1. destruct (get_decoder mlp4) as [dec|e]; [|done].
  unfold list_items at 1. rewrite H2f. reflexivity.
Qed.

Lemma TempConv_init_head_None (h : gmap nat (list Z)) pk mlp4 nk :
  h !! pk = Some nk →
  TempConv_init_head pk PyNone mlp4 h
  = match get_decoder mlp4 with
    | Raise e => (<[nker_copy h := nk]> h, Raise e)
    | Ok dec =>
        (<[nker_copy h := nk]> h,
         Ok (PyList (nker_copy h), PyNone,
             "TempCNN_" +:+ py_join "|" (py_str <$> nk), dec))
    end.
Proof.
  intros Hk. unfold TempConv_init_head.
  unfold mbind, HeapM_bind, deepcopy at 1. rewrite Hk. fold (nker_copy h).
  unfold deepcopy. unfold list_items at 1. rewrite lookup_insert_eq.
  unfold lift at 1. by destruct (get_decoder mlp4) as [dec|e].
Qed.

Lemma TempConv_init_list (h : gmap nat (list Z)) input_size pk seq_len pf mlp4
    positions nk nf :
  h !! pk = Some nk → h !! pf = Some nf →
  TempConv_init input_size pk seq_len (PyList pf) mlp4 positions h
  = match get_decoder mlp4 with
    | Raise e => (heap_copied h nk nf, Raise e)
    | Ok dec =>
      match conv_layers_of (input_size :: nk) with
      | Raise e =>
          (<[nker_copy h := input_size :: nk]> (heap_copied h nk nf), Raise e)
      | Ok conv =>
        match lin_layers_of (fc_widths input_size seq_len nk nf) with
        | Raise e => (heap_built h input_size seq_len nk nf, Raise e)
        | Ok lin =>
          match position_enc_of input_size positions with
          | Raise e => (heap_built h input_size seq_len nk nf, Raise e)
          | Ok pe =>
              (heap_built h input_size seq_len nk nf,
               Ok {| input_size := input_size; seq_len := seq_len;
                     name := (("TempCNN_" +:+ py_join "|" (py_str <$> nk))
                              +:+ "FC") +:+ py_join "|" (py_str <$> nf);
                     nker := PyList (nker_copy h);
                     nfc := PyList (nfc_copy h nk);
                     decoder := dec; conv1d := conv; linear := lin;
                     position_enc := pe; training := true |})
          end
        end
      end
    end.
Proof.
  intros Hk Hf.
  destruct (nfc_copy_fresh h nk) as [Hfr Hne].
  assert (heap_copied h nk nf !! nker_copy h = Some nk) as H2.
  { unfold heap_copied. rewrite lookup_insert_ne by done. apply lookup_insert_eq. }
  set (h3 := <[nker_copy h := input_size :: nk]> (heap_copied h nk nf)).
  assert (h3 !! nker_copy h = Some (input_size :: nk)) as H3
    by apply lookup_insert_eq.
  assert (h3 !! nfc_copy h nk = Some nf) as H3f.
  { unfold h3. rewrite lookup_insert_ne by done. apply lookup_insert_eq. }
  unfold TempConv_init. unfold mbind at 1, HeapM_bind at 1.
  rewrite (TempConv_init_head_list h pk pf mlp4 nk nf Hk Hf).
  destruct (get_decoder mlp4) as [dec|e]; [|done].
  unfold mbind, HeapM_bind, getattr_insert at 1. unfold mret, HeapM_ret.
  unfold insert0 at 1. rewrite H2. fold h3.
  unfold list_items at 1. rewrite H3.
  unfold lift at 1. destruct (conv_layers_of (input_size :: nk)) as [conv|e]; [|done].
  unfold getattr_insert at 1. unfold mret, HeapM_ret.
  unfold lift at 1. rewrite py_index_last by done.
  unfold insert0 at 1. rewrite H3f.
  fold (fc_widths input_size seq_len nk nf). unfold h3.
  fold (heap_built h input_size seq_len nk nf).
  unfold list_items at 1. unfold heap_built at 1. rewrite lookup_insert_eq.
  fold (heap_built h input_size seq_len nk nf).
  unfold lift at 1.
  destruct (lin_layers_of (fc_widths input_size seq_len nk nf)) as [lin|e]; [|done].
  unfold lift at 1.
  by destruct (position_enc_of input_size positions) as [pe|e].
Qed.

Lemma TempConv_init_None (h : gmap nat (list Z)) input_size pk seq_len mlp4
    positions nk :
  h !! pk = Some nk →
  TempConv_init input_size pk seq_len PyNone mlp4 positions h
  = match get_decoder mlp4 with
    | Raise e => (<[nker_copy h := nk]> h, Raise e)
    | Ok dec =>
      match conv_layers_of (input_size :: nk) with
      | Raise e => (<[nker_copy h := input_size :: nk]> h, Raise e)
      | Ok conv => (<[nker_copy h := input_size :: nk]> h, Raise AttributeError)
      end
    end.
Proof.
  intros Hk. unfold TempConv_init. unfold mbind at 1, HeapM_bind at 1.
  rewrite (TempConv_init_head_None h pk mlp4 nk Hk).
  destruct (get_decoder mlp4) as [dec|e]; [|done].
  unfold mbind, HeapM_bind, getattr_insert at 1. unfold mret, HeapM_ret.
  unfold insert0 at 1. rewrite lookup_insert_eq, insert_insert_eq.
  unfold list_items at 1. rewrite lookup_insert_eq.
  unfold lift at 1.
  by destruct (conv_layers_of (input_size :: nk)) as [conv|e].
Qed.

Lemma TempConv_init_Ok_inv (h : gmap nat (list Z)) input_size pk seq_len pf
    mlp4 positions nk nf h' m :
  h !! pk = Some nk → h !! pf = Some nf →
  TempConv_init input_size pk seq_len (PyList pf) mlp4 positions h = (h', Ok m) →
  ∃ dec conv lin pe,
    get_decoder mlp4 = Ok dec
    ∧ conv_layers_of (input_size :: nk) = Ok conv
    ∧ lin_layers_of (fc_widths input_size seq_len nk nf) = Ok lin
    ∧ position_enc_of input_size positions = Ok pe
    ∧ h' = heap_built h input_size seq_len nk nf
    ∧ m = {| input_size := input_size; seq_len := seq_len;
             name := (("TempCNN_" +:+ py_join "|" (py_str <$> nk)) +:+ "FC")
                     +:+ py_join "|" (py_str <$> nf);
             nker := PyList (nker_copy h); nfc := PyList (nfc_copy h nk);
             decoder := dec; conv1d := conv; linear := lin;
             position_enc := pe; training := true |}.
Proof.
  intros Hk Hf. rewrite (TempConv_init_list h _ pk _ pf _ _ nk nf Hk Hf).
  destruct (get_decoder mlp4) as [dec|]; [|done].
  destruct (conv_layers_of _) as [conv|]; [|done].
  destruct (lin_layers_of _) as [lin|]; [|done].
  destruct (position_enc_of _ _) as [pe|]; [|done].
  intros [= <- <-]. by exists dec, conv, lin, pe.
Qed.

(** What a loop that succeeded has built, whatever the widths. *)
Lemma for_each_blocks_inv {A B} (xs : list A)
    (body : list B → A → result (list B)) (blk : A → list B) (acc r : list B) :
  (∀ acc x acc', x ∈ xs → body acc x = Ok acc' → acc' = acc ++ blk x) →
  for_each xs body acc = Ok r → r = acc ++ mjoin (blk <$> xs).
Proof.
  revert acc. induction xs as [|x xs IH]; intros acc Hbody; simpl.
  - intros [= <-]. by rewrite app_nil_r.
  - destruct (body acc x) as [acc'|e] eqn:Hx; [|done]. simpl.
    apply Hbody in Hx as ->; [|by left]. intros Hr.
    apply IH in Hr as ->; [by rewrite <- app_assoc|].
    intros acc' y acc'' Hy. apply Hbody. by right.
Qed.

Lemma nn_Conv1d_inv (a b k p : Z) (l : Layer) :
  nn_Conv1d a b k p = Ok l → l = Conv1d a b k p.
Proof. unfold nn_Conv1d. destruct (_ || _); [done | by intros [= <-]]. Qed.

Lemma nn_Linear_inv (a b : Z) (l : Layer) :
  nn_Linear a b = Ok l → l = Linear a b.
Proof. unfold nn_Linear. destruct (_ || _); [done | by intros [= <-]]. Qed.

Lemma nn_BatchNorm1d_inv (n : Z) (l : Layer) :
  nn_BatchNorm1d n = Ok l → l = BatchNorm1d n 0.
Proof. unfold nn_BatchNorm1d. destruct (_ <? _); [done | by intros [= <-]]. Qed.

Lemma conv_layers_of_inv (ws : list Z) (ls : list Layer) :
  conv_layers_of ws = Ok ls →
  ls = mjoin (conv_block ws <$> seq 0 (length ws - 1)).
Proof.
  unfold conv_layers_of. rewrite (py_range_len_pred ws 1) by lia. intros Hls.
  apply (for_each_blocks_inv _ _ (λ i, conv_block ws (Z.to_nat i))) in Hls.
  - by rewrite Hls, mjoin_fmap_of_nat.
  - intros acc i acc' [k [-> Hk]]%list_elem_of_fmap. apply elem_of_seq in Hk.
    rewrite Nat2Z.id.
    replace (Z.of_nat k + 1) with (Z.of_nat (S k)) by lia.
    rewrite !py_index_width by lia. simpl.
    destruct (nn_Conv1d _ _ _ _) as [c|] eqn:Hc; [|done].
    apply nn_Conv1d_inv in Hc as ->. simpl.
    destruct (nn_BatchNorm1d _) as [bn|] eqn:Hbn; [|done].
    apply nn_BatchNorm1d_inv in Hbn as ->. simpl. by intros [= <-].
Qed.

Lemma lin_layers_of_inv (ws : list Z) (ls : list Layer) :
  lin_layers_of ws = Ok ls →
  ls = mjoin (lin_block ws <$> seq 0 (length ws - 1)).
Proof.
  unfold lin_layers_of. rewrite (py_range_len_pred ws 1) by lia. intros Hls.
  apply (for_each_blocks_inv _ _ (λ i, lin_block ws (Z.to_nat i))) in Hls.
  - by rewrite Hls, mjoin_fmap_of_nat.
  - intros acc i acc' [k [-> Hk]]%list_elem_of_fmap. apply elem_of_seq in Hk.
    rewrite Nat2Z.id.
    replace (Z.of_nat k + 1) with (Z.of_nat (S k)) by lia.
    rewrite !py_index_width by lia. simpl.
    destruct (nn_Linear _ _) as [c|] eqn:Hc; [|done].
    apply nn_Linear_inv in Hc as ->. simpl.
    destruct (nn_BatchNorm1d _) as [bn|] eqn:Hbn; [|done].
    apply nn_BatchNorm1d_inv in Hbn as ->. simpl. by intros [= <-].
Qed.

(** C3. In a constructed model the convolution stack is one (Conv1d with
    kernel 3 and padding 1, BatchNorm1d, ReLU) triple per adjacent pair
    of input_size :: nker, and the fully-connected stack one (Linear,
    BatchNorm1d, ReLU) triple per adjacent pair of
    (last convolution width * seq_len) :: nfc; the last transform of each
    stack is followed by normalisation and nonlinearity like the
    others. *)
Theorem C3_stacks_are_triples (h : gmap nat (list Z)) input_size pk seq_len pf
    mlp4 positions nk nf h' m :
  h !! pk = Some nk → h !! pf = Some nf →
  TempConv_init input_size pk seq_len (PyList pf) mlp4 positions h = (h', Ok m) →
  conv1d m = mjoin (conv_block (input_size :: nk) <$> seq 0 (length nk))
  ∧ linear m
    = mjoin (lin_block (last_width (input_size :: nk) * seq_len :: nf)
               <$> seq 0 (length nf))
  ∧ length (List.filter is_Conv1d (conv1d m)) = length nk
  ∧ length (List.filter is_Linear (linear m)) = length nf.
Proof.
  intros Hk Hf Hinit.
  destruct (TempConv_init_Ok_inv _ _ _ _ _ _ _ _ _ _ _ Hk Hf Hinit)
    as (dec & conv & lin & pe & _ & Hconv & Hlin & _ & _ & ->).
  apply conv_layers_of_inv in Hconv. apply lin_layers_of_inv in Hlin.
  simpl in *. rewrite Nat.sub_0_r in Hconv, Hlin. subst conv lin.
  unfold fc_widths. repeat split; try done.
  - rewrite filter_mjoin_fmap.
    rewrite (mjoin_singletons
      (λ i, Conv1d (width_at (input_size :: nk) i)
              (width_at (input_size :: nk) (S i)) 3 1)).
    by rewrite length_fmap, length_seq.
  - rewrite filter_mjoin_fmap.
    rewrite (mjoin_singletons
      (λ i, Linear (width_at (last_width (input_size :: nk) * seq_len :: nf) i)
              (width_at (last_width (input_size :: nk) * seq_len :: nf) (S i)))).
    by rewrite length_fmap, length_seq.
Qed.

Lemma C3_stacks_are_triples_witness :
  ∃ h' m,
    TempConv_init 4 0%nat 5 (PyList 1%nat) [32; 10; 3] None caller_heap = (h', Ok m)
    ∧ conv1d m = [Conv1d 4 8 3 1; BatchNorm1d 8 0; ReLU;
                  Conv1d 8 16 3 1; BatchNorm1d 16 0; ReLU]
    ∧ linear m = [Linear 80 32; BatchNorm1d 32 0; ReLU]
    ∧ length (List.filter is_Conv1d (conv1d m)) = 2%nat
    ∧ length (List.filter is_Linear (linear m)) = 1%nat.
Proof.
  eexists _, _. split; [vm_compute; reflexivity|].
  eapply (C3_stacks_are_triples caller_heap 4 0%nat 5 1%nat [32; 10; 3] None
            [8; 16] [32]); [reflexivity | reflexivity | vm_compute; reflexivity].
Defined.

(** ** Construction: what is checked, what is copied, how the name reads *)

Lemma position_enc_of_Some (d : Z) (p : positions_arg) :
  positions_list p ≠ [] →
  ∃ m, position_enc_of d (Some p)
       = Ok (Some {| num_embeddings := length (positions_list p);
                     embedding_dim := Z.to_nat d; weight := m |}).
Proof.
  intros Hne.
  destruct (get_sinusoid_encoding_table_shape d 1000 p Hne) as (m & Hm).
  exists m. unfold position_enc_of. by rewrite Hm.
Qed.

Lemma position_enc_of_inv (d : Z) (positions : option positions_arg)
    (pe : Embedding) :
  position_enc_of d positions = Ok (Some pe) →
  ∃ p, positions = Some p
       ∧ positions_list p ≠ []
       ∧ num_embeddings pe = length (positions_list p)
       ∧ embedding_dim pe = Z.to_nat d.
Proof.
  destruct positions as [p|]; [|done]. intros Hpe. exists p.
  destruct (decide (positions_list p = [])) as [Hnil|Hne].
  - unfold position_enc_of, get_sinusoid_encoding_table in Hpe.
    by rewrite Hnil in Hpe.
  - destruct (position_enc_of_Some d p Hne) as [m Hm].
    rewrite Hm in Hpe. injection Hpe as <-. by repeat split.
Qed.

Lemma last_width_pos (ws : list Z) :
  ws ≠ [] → Forall (λ w, 0 < w) ws → 0 < last_width ws.
Proof.
  destruct ws as [|x ws' _] using rev_ind; [done|]. intros _ Hall.
  unfold last_width. rewrite List.last_last.
  apply Forall_app in Hall as [_ Hx]. by inversion Hx.
Qed.

Lemma fc_widths_pos (input_size seq_len : Z) (nk nf : list Z) :
  0 < input_size → 0 < seq_len →
  Forall (λ w, 0 < w) nk → Forall (λ w, 0 < w) nf →
  Forall (λ w, 0 < w) (fc_widths input_size seq_len nk nf).
Proof.
  intros Hi Hs Hnk Hnf. unfold fc_widths. constructor; [|done].
  apply Z.mul_pos_pos; [|done]. apply last_width_pos; [done|]. by constructor.
Qed.

Lemma TempConv_init_succeeds (h : gmap nat (list Z)) input_size pk
    seq_len pf mlp4 positions nk nf :
  h !! pk = Some nk → h !! pf = Some nf →
  0 < input_size → 0 < seq_len →
  Forall (λ w, 0 < w) nk → Forall (λ w, 0 < w) nf → Forall (λ w, 0 < w) mlp4 →
  (∀ p, positions = Some p → positions_list p ≠ []) →
  ∃ h' m,
    TempConv_init input_size pk seq_len (PyList pf) mlp4 positions h = (h', Ok m).
Proof.
  intros Hk Hf Hi Hs Hnk Hnf Hmlp Hpos.
  rewrite (TempConv_init_list h _ pk _ pf _ _ nk nf Hk Hf).
  rewrite get_decoder_blocks by done.
  rewrite conv_layers_of_blocks by (by constructor).
  rewrite lin_layers_of_blocks by (by apply fc_widths_pos).
  destruct positions as [p|].
  - destruct (position_enc_of_Some input_size p (Hpos p eq_refl)) as [m ->].
    by eexists _, _.
  - by eexists _, _.
Qed.





Lemma append_assoc (a b c : string) : (a +:+ b) +:+ c = a +:+ (b +:+ c).
Proof.
  induction a as [|x a IH]; [done|].
  change (String x ((a +:+ b) +:+ c) = String x (a +:+ b +:+ c)).
  by rewrite IH.
Qed.

Lemma lookup_insert_fresh (h g : gmap nat (list Z)) (k l : nat) (x v : list Z) :
  h !! l = Some v → h !! k = None → g !! l = Some v → <[k := x]> g !! l = Some v.
Proof.
  intros Hl Hk Hg. rewrite lookup_insert_ne; [done|]. congruence.
Qed.

(** The caller's objects are the same in every heap the constructor can
    leave. *)
Lemma heap_copied_frame (h : gmap nat (list Z)) (nk nf : list Z) l v :
  h !! l = Some v → heap_copied h nk nf !! l = Some v.
Proof.
  intros Hl. destruct (nfc_copy_fresh h nk) as [Hfr _].
  pose proof (nker_copy_fresh h) as Hkr. unfold heap_copied.
  by repeat (eapply lookup_insert_fresh; [exact Hl | done |]).
Qed.

Lemma heap_built_frame (h : gmap nat (list Z)) input_size seq_len nk nf l v :
  h !! l = Some v → heap_built h input_size seq_len nk nf !! l = Some v.
Proof.
  intros Hl. destruct (nfc_copy_fresh h nk) as [Hfr _].
  pose proof (nker_copy_fresh h) as Hkr. unfold heap_built.
  repeat (eapply lookup_insert_fresh; [exact Hl | done |]).
  exact Hl.
Qed.

Lemma heap_built_copies (h : gmap nat (list Z)) input_size seq_len nk nf :
  heap_built h input_size seq_len nk nf !! nker_copy h = Some (input_size :: nk)
  ∧ heap_built h input_size seq_len nk nf !! nfc_copy h nk
    = Some (fc_widths input_size seq_len nk nf).
Proof.
  destruct (nfc_copy_fresh h nk) as [_ Hne]. unfold heap_built. split.
  - rewrite lookup_insert_ne by done. apply lookup_insert_eq.
  - apply lookup_insert_eq.
Qed.

(** C8. Whatever the outcome of the constructor, every list object of the
    caller's heap, the nker and nfc arguments among them, holds what it
    held before; the one width inserted at position 0 goes into two
    objects that did not exist before.  The name of a constructed model
    is the prefix, the original nker values joined by a bar, the marker
    FC and the original nfc values joined by a bar; when nfc is None the
    name computed by the head of the constructor stops after the nker
    values. *)
Theorem C8_caller_lists_and_name (h : gmap nat (list Z)) input_size pk seq_len
    nfc_arg mlp4 positions nk h' r :
  h !! pk = Some nk →
  (∀ pf, nfc_arg = PyList pf → is_Some (h !! pf)) →
  TempConv_init input_size pk seq_len nfc_arg mlp4 positions h = (h', r) →
  (∀ l v, h !! l = Some v → h' !! l = Some v)
  ∧ (∀ m, r = Ok m →
       ∃ pf nf, nfc_arg = PyList pf ∧ h !! pf = Some nf
         ∧ name m = "TempCNN_" +:+ py_join "|" (py_str <$> nk)
                    +:+ "FC" +:+ py_join "|" (py_str <$> nf)
         ∧ nker m = PyList (nker_copy h) ∧ nfc m = PyList (nfc_copy h nk)
         ∧ h !! nker_copy h = None ∧ h !! nfc_copy h nk = None
         ∧ h' !! nker_copy h = Some (input_size :: nk)
         ∧ h' !! nfc_copy h nk
           = Some (last_width (input_size :: nk) * seq_len :: nf))
  ∧ (nfc_arg = PyNone → ∀ dec, get_decoder mlp4 = Ok dec →
       snd (TempConv_init_head pk nfc_arg mlp4 h)
       = Ok (PyList (nker_copy h), PyNone,
             "TempCNN_" +:+ py_join "|" (py_str <$> nk), dec)).
Proof.
  intros Hk Hwf Hinit. pose proof (nker_copy_fresh h) as Hkr.
  destruct nfc_arg as [|pf].
  - rewrite (TempConv_init_None h _ pk _ _ _ nk Hk) in Hinit.
    split; [|split].
    + intros l v Hl.
      destruct (get_decoder mlp4); [destruct (conv_layers_of _)|];
        injection Hinit as <- <-;
        by (eapply lookup_insert_fresh; [exact Hl | done |]).
    + intros m ->.
      destruct (get_decoder mlp4); [destruct (conv_layers_of _)|]; done.
    + intros _ dec Hdec.
      by rewrite (TempConv_init_head_None h pk mlp4 nk Hk), Hdec.
  - destruct (Hwf pf eq_refl) as [nf Hf].
    rewrite (TempConv_init_list h _ pk _ pf _ _ nk nf Hk Hf) in Hinit.
    destruct (nfc_copy_fresh h nk) as [Hfr Hne].
    split; [|split; [|done]].
    + intros l v Hl.
      destruct (get_decoder mlp4);
        [destruct (conv_layers_of _);
           [destruct (lin_layers_of _); [destruct (position_enc_of _ _)|]|]|];
        injection Hinit as <- <-;
        first [ by apply heap_built_frame
              | by apply heap_copied_frame
              | eapply lookup_insert_fresh; [exact Hl | done |];
                by apply heap_copied_frame ].
    + intros m ->. exists pf, nf.
      destruct (get_decoder mlp4); [|done].
      destruct (conv_layers_of _); [|done].
      destruct (lin_layers_of _); [|done].
      destruct (position_enc_of _ _); [|done].
      injection Hinit as <- <-. cbn [name nker nfc].
      destruct (heap_built_copies h input_size seq_len nk nf) as [Hb1 Hb2].
      rewrite !append_assoc. by repeat split.
Qed.

Lemma C8_caller_lists_and_name_witness :
  ∃ h' m,
    TempConv_init 4 0%nat 5 (PyList 1%nat) [32; 10; 3] None caller_heap
    = (h', Ok m)
    ∧ h' !! 0%nat = Some [8; 16] ∧ h' !! 1%nat = Some [32]
    ∧ name m = "TempCNN_8|16FC32"
    ∧ h' !! 2%nat = Some [4; 8; 16] ∧ h' !! 3%nat = Some [80; 32].
Proof.
  eexists _, _. split; [vm_compute; reflexivity|].
  destruct (C8_caller_lists_and_name caller_heap 4 0%nat 5 (PyList 1%nat)
              [32; 10; 3] None [8; 16] _ _ eq_refl
              ltac:(intros pf [= <-]; by eexists)
              ltac:(vm_compute; reflexivity))
    as (Hframe & Hname & _).
  destruct (Hname _ eq_refl) as (pf & nf & [= <-] & [= <-] & Hn & _ & _ & _ & _ & H2 & H3).
  split; [by apply Hframe|]. split; [by apply Hframe|].
  split; [exact Hn|]. split; [exact H2 | exact H3].
Defined.

(** ** An absent nfc *)

(** C9. With nfc = None the constructor gets as far as the insertion into
    self.nfc and raises AttributeError there, although the name was built
    under a guard for None; with nfc = [] it returns a model whose
    fully-connected stack is empty, built from the one-element width list
    [last convolution width * seq_len], and that stack hands on whatever
    it is given. *)
Theorem C9_absent_nfc_raises (h : gmap nat (list Z)) input_size pk seq_len mlp4
    positions nk :
  h !! pk = Some nk →
  0 < input_size → 0 < seq_len →
  Forall (λ w, 0 < w) nk → Forall (λ w, 0 < w) mlp4 →
  (∀ p, positions = Some p → positions_list p ≠ []) →
  (∃ h', TempConv_init input_size pk seq_len PyNone mlp4 positions h
         = (h', Raise AttributeError))
  ∧ (∀ pf, h !! pf = Some [] →
       ∃ h' m,
         TempConv_init input_size pk seq_len (PyList pf) mlp4 positions h
         = (h', Ok m)
         ∧ linear m = []
         ∧ h' !! nfc_copy h nk = Some [last_width (input_size :: nk) * seq_len]
         ∧ ∀ mode x, Sequential_forward mode (linear m) x = (linear m, Ok x)).
Proof.
  intros Hk Hi Hs Hnk Hmlp Hpos. split.
  - rewrite (TempConv_init_None h _ pk _ _ _ nk Hk).
    rewrite get_decoder_blocks by done.
    rewrite conv_layers_of_blocks by (by constructor). by eexists.
  - intros pf Hf.
    destruct (TempConv_init_succeeds h input_size pk seq_len pf
                mlp4 positions nk [] Hk Hf Hi Hs Hnk ltac:(constructor) Hmlp Hpos)
      as (h' & m & Hinit).
    exists h', m. split; [done|].
    destruct (TempConv_init_Ok_inv _ _ _ _ _ _ _ _ _ _ _ Hk Hf Hinit)
      as (dec & conv & lin & pe & _ & _ & Hlin & _ & -> & ->).
    apply lin_layers_of_inv in Hlin. simpl in Hlin. subst lin. simpl.
    split; [done|]. split; [|done].
    by destruct (heap_built_copies h input_size seq_len nk []) as [_ ->].
Qed.

Lemma C9_absent_nfc_raises_witness :
  (∃ h', TempConv_init 4 0%nat 5 PyNone [80; 10; 3] None caller_heap_empty
         = (h', Raise AttributeError))
  ∧ (∀ pf, caller_heap_empty !! pf = Some [] →
       ∃ h' m,
         TempConv_init 4 0%nat 5 (PyList pf) [80; 10; 3] None caller_heap_empty
         = (h', Ok m)
         ∧ linear m = []
         ∧ h' !! nfc_copy caller_heap_empty [8; 16]
           = Some [last_width [4; 8; 16] * 5]
         ∧ ∀ mode x, Sequential_forward mode (linear m) x = (linear m, Ok x)).
Proof.
  apply (C9_absent_nfc_raises caller_heap_empty 4 0%nat 5 [80; 10; 3] None [8; 16]).
  - reflexivity.
  - lia.
  - lia.
  - repeat constructor.
  - repeat constructor.
  - discriminate.
Defined.

(** ** The position lookup *)

Lemma bidx_lt (m i : nat) : (i < m)%nat → bidx m i = i.
Proof.
  intros Hi. unfold bidx. destruct (m =? 1)%nat eqn:E; [|done].
  apply Nat.eqb_eq in E. lia.
Qed.

Lemma bdim_refl (n : nat) : bdim n n = Some n.
Proof. unfold bdim. by rewrite Nat.eqb_refl. Qed.

Lemma src_pos_Ok (sz_b seq_len : nat) :
  ∃ sp, src_pos sz_b seq_len = Ok sp
        ∧ ldim0 sp = sz_b ∧ ldim1 sp = seq_len
        ∧ ∀ b t, (t < seq_len)%nat → lat2 sp b t = Z.of_nat t + 1.
Proof.
  unfold src_pos, expand, torch_arange. cbn [llen lat1].
  replace (Z.to_nat (Z.of_nat seq_len + 1 - 1)) with seq_len by lia.
  rewrite Nat.eqb_refl. simpl. eexists. split; [reflexivity|].
  cbn [ldim0 ldim1 lat2]. repeat split. intros b t Ht.
  rewrite bidx_lt by done. lia.
Qed.

Lemma forallb_seq (P : nat → bool) (n : nat) :
  forallb P (seq 0 n) = true ↔ ∀ i, (i < n)%nat → P i = true.
Proof.
  rewrite forallb_forall. split.
  - intros H i Hi. apply H, in_seq. lia.
  - intros H i [_ Hi]%in_seq. apply H. lia.
Qed.

Lemma Embedding_forward_is_ok (e : Embedding) (idx : ltensor2) :
  is_ok (Embedding_forward e idx) = true
  ↔ ∀ b t, (b < ldim0 idx)%nat → (t < ldim1 idx)%nat →
      index_ok e (lat2 idx b t) = true.
Proof.
  unfold Embedding_forward.
  destruct (forallb _ _) eqn:E; simpl.
  - split; [|done]. intros _ b t Hb Ht.
    rewrite forallb_seq in E. specialize (E b Hb).
    rewrite forallb_seq in E. by apply E.
  - split; [done|]. intros H. rewrite <- E.
    apply forallb_seq. intros b Hb. apply forallb_seq. intros t Ht. by apply H.
Qed.

Lemma Embedding_forward_Ok (e : Embedding) (idx : ltensor2) :
  (∀ b t, (b < ldim0 idx)%nat → (t < ldim1 idx)%nat →
     index_ok e (lat2 idx b t) = true) →
  Embedding_forward e idx
  = Ok {| dim0 := ldim0 idx; dim1 := ldim1 idx; dim2 := embedding_dim e;
          at3 := λ b t c, weight_at e (lat2 idx b t) c |}.
Proof.
  intros H. apply Embedding_forward_is_ok in H. unfold Embedding_forward in *.
  by destruct (forallb _ _).
Qed.

Lemma Embedding_forward_Raise (e : Embedding) (idx : ltensor2) (b t : nat) :
  (b < ldim0 idx)%nat → (t < ldim1 idx)%nat →
  index_ok e (lat2 idx b t) = false →
  Embedding_forward e idx = Raise IndexError.
Proof.
  intros Hb Ht Hbad.
  destruct (Embedding_forward e idx) as [y|err] eqn:E.
  - assert (is_ok (Embedding_forward e idx) = true) as Hok by (by rewrite E).
    rewrite Embedding_forward_is_ok in Hok. specialize (Hok b t Hb Ht). congruence.
  - unfold Embedding_forward in E. destruct (forallb _ _); congruence.
Qed.

(** The lookup of a batch with at least one sample succeeds exactly when
    the sequence is shorter than the table. *)
Lemma lookup_in_bounds (e : Embedding) (sz_b seq_len : nat) (sp : ltensor2) :
  src_pos sz_b seq_len = Ok sp → (1 ≤ sz_b)%nat → (1 ≤ num_embeddings e)%nat →
  is_ok (Embedding_forward e sp) = true ↔ (seq_len < num_embeddings e)%nat.
Proof.
  intros Hsp Hb He.
  destruct (src_pos_Ok sz_b seq_len) as (sp' & Hsp' & H0 & H1 & Hat).
  rewrite Hsp in Hsp'. injection Hsp' as <-.
  rewrite Embedding_forward_is_ok, H0, H1. unfold index_ok. split.
  - intros H. destruct seq_len as [|n]; [lia|].
    specialize (H 0%nat n ltac:(lia) ltac:(lia)).
    rewrite Hat in H by lia. apply andb_true_iff in H as [_ H].
    apply Z.ltb_lt in H. lia.
  - intros Hlt b t Hb' Ht. rewrite Hat by done.
    apply andb_true_iff. split; [apply Z.leb_le | apply Z.ltb_lt]; lia.
Qed.

Lemma enc_output_out_of_bounds (m : TempConv) (pe : Embedding) (x : tensor3) :
  position_enc m = Some pe →
  (1 ≤ dim0 x)%nat → (1 ≤ dim1 x)%nat → (num_embeddings pe ≤ dim1 x)%nat →
  enc_output m x = Raise IndexError.
Proof.
  intros Hpe Hb Hl Hrows. unfold enc_output. rewrite Hpe.
  destruct (src_pos_Ok (dim0 x) (dim1 x)) as (sp & -> & H0 & H1 & Hat). simpl.
  rewrite (Embedding_forward_Raise pe sp 0 (dim1 x - 1)); [done | lia | lia |].
  rewrite Hat by lia. unfold index_ok.
  apply andb_false_iff. right. apply Z.ltb_ge. lia.
Qed.

Lemma enc_output_in_bounds (m : TempConv) (pe : Embedding) (x : tensor3) :
  position_enc m = Some pe →
  (dim1 x < num_embeddings pe)%nat →
  ∃ sp, src_pos (dim0 x) (dim1 x) = Ok sp
    ∧ (∀ b t, (t < dim1 x)%nat → lat2 sp b t = Z.of_nat t + 1)
    ∧ enc_output m x
      = tensor_add x {| dim0 := dim0 x; dim1 := dim1 x; dim2 := embedding_dim pe;
                        at3 := λ b t c, weight_at pe (lat2 sp b t) c |}.
Proof.
  intros Hpe Hlt. unfold enc_output. rewrite Hpe.
  destruct (src_pos_Ok (dim0 x) (dim1 x)) as (sp & -> & H0 & H1 & Hat).
  exists sp. split; [done|]. split; [done|]. simpl.
  rewrite Embedding_forward_Ok; [by rewrite H0, H1|].
  intros b t _ Ht. rewrite H1 in Ht. rewrite Hat by done. unfold index_ok.
  apply andb_true_iff. split; [apply Z.leb_le | apply Z.ltb_lt]; lia.
Qed.

Lemma forward_enc_Raise (m : TempConv) (x : tensor3) (e : exn) :
  enc_output m x = Raise e → forward m x = (m, Raise e).
Proof. intros H. unfold forward. by rewrite H. Qed.

Lemma forward_enc_Ok (m : TempConv) (x enc : tensor3) :
  enc_output m x = Ok enc → forward m x = forward_stacks m enc.
Proof. intros H. unfold forward. by rewrite H. Qed.

Lemma position_enc_of_given (d : Z) (p : positions_arg) (o : option Embedding) :
  position_enc_of d (Some p) = Ok o →
  ∃ pe, o = Some pe
        ∧ positions_list p ≠ []
        ∧ num_embeddings pe = length (positions_list p)
        ∧ embedding_dim pe = Z.to_nat d.
Proof.
  intros Ho. destruct o as [pe|].
  - exists pe. split; [done|].
    destruct (position_enc_of_inv _ _ _ Ho) as (p' & [= <-] & ? & ? & ?). done.
  - unfold position_enc_of in Ho.
    destruct (get_sinusoid_encoding_table _ _ _) as [t|]; [|done]. simpl in Ho.
    by destruct (Embedding_from_pretrained t).
Qed.

Lemma length_py_range (n : Z) : length (py_range n) = Z.to_nat n.
Proof. unfold py_range. by rewrite length_fmap, length_seq. Qed.

(** ** The encoding step *)

Lemma tensor_add_same_shape (x y : tensor3) :
  dim0 y = dim0 x → dim1 y = dim1 x → dim2 y = dim2 x →
  ∃ s, tensor_add x y = Ok s
    ∧ dim0 s = dim0 x ∧ dim1 s = dim1 x ∧ dim2 s = dim2 x
    ∧ ∀ b t c, (b < dim0 x)%nat → (t < dim1 x)%nat → (c < dim2 x)%nat →
        at3 s b t c = (at3 x b t c + at3 y b t c)%R.
Proof.
  intros H0 H1 H2. unfold tensor_add. rewrite H0, H1, H2, !bdim_refl.
  eexists. split; [reflexivity|]. cbn [dim0 dim1 dim2 at3].
  do 3 (split; [done|]). intros b t c Hb Ht Hc. by rewrite !bidx_lt.
Qed.




(** ** Layers and stacks on shapes *)

Lemma snd_Sequential_forward_cons (mode : bool) (l : Layer) (ls : list Layer)
    (x : activation) :
  snd (Sequential_forward mode (l :: ls) x)
  = (snd (Layer_forward mode l x) ≫= λ y, snd (Sequential_forward mode ls y)).
Proof.
  simpl. destruct (Layer_forward mode l x) as [l' [y|e]]; [|done].
  simpl. by destruct (Sequential_forward mode ls y).
Qed.

Lemma snd_Sequential_forward_app (mode : bool) (l1 l2 : list Layer)
    (x : activation) :
  snd (Sequential_forward mode (l1 ++ l2) x)
  = (snd (Sequential_forward mode l1 x) ≫= λ y,
     snd (Sequential_forward mode l2 y)).
Proof.
  revert x. induction l1 as [|l l1 IH]; intros x; [done|].
  rewrite <- app_comm_cons, !snd_Sequential_forward_cons.
  destruct (snd (Layer_forward mode l x)) as [y|e]; [|done]. simpl. apply IH.
Qed.

Lemma Layer_forward_erase (mode : bool) (l l0 : Layer) (x : activation) :
  erase l = erase l0 →
  snd (Layer_forward mode l x) = snd (Layer_forward mode l0 x)
  ∧ erase (fst (Layer_forward mode l x)) = erase l.
Proof.
  destruct l, l0; try done; simpl; intros Heq; inversion Heq; subst;
    try done.
  unfold BatchNorm1d_forward.
  by destruct (shape x) as [|b [|c [|n [|? ?]]]].
Qed.

(** The outcome of a stack depends on the layers only up to their batch
    counters, and running it changes nothing but those counters. *)
Lemma Sequential_forward_erase (mode : bool) (ls ls0 : list Layer)
    (x : activation) :
  erase <$> ls = erase <$> ls0 →
  snd (Sequential_forward mode ls x) = snd (Sequential_forward mode ls0 x)
  ∧ erase <$> fst (Sequential_forward mode ls x) = erase <$> ls.
Proof.
  revert ls0 x. induction ls as [|l ls IH]; intros [|l0 ls0] x; try done.
  rewrite !fmap_cons. intros [= Hl Hls].
  destruct (Layer_forward_erase mode l l0 x Hl) as [Hsnd Hfst].
  rewrite !snd_Sequential_forward_cons, Hsnd.
  cbn [Sequential_forward].
  destruct (Layer_forward mode l x) as [l' [y|e]];
    destruct (Layer_forward mode l0 x) as [l0' [y0|e0]];
    cbn [fst snd] in *; try done.
  - injection Hsnd as <-. destruct (IH ls0 y Hls) as [IH1 IH2].
    unfold mbind, result_bind.
    destruct (Sequential_forward mode ls y) as [ls' r]. cbn [fst snd] in *.
    split; [exact IH1|]. by rewrite !fmap_cons, Hfst, IH2.
  - split; [done|]. by rewrite !fmap_cons, Hfst.
Qed.

Lemma Conv1d_forward_same (ci co : Z) (b l : nat) (d : bool) :
  0 < ci → 0 < co → (1 ≤ l)%nat →
  Conv1d_forward ci co 3 1 {| shape := [b; Z.to_nat ci; l]; dense := d |}
  = Ok {| shape := [b; Z.to_nat co; l]; dense := true |}.
Proof.
  intros Hci Hco Hl. unfold Conv1d_forward, conv_out_len. cbn [shape].
  rewrite (proj2 (Z.eqb_eq _ _)) by lia.
  rewrite (proj2 (Z.leb_le 1 co)) by lia. cbn [andb].
  rewrite (proj2 (Z.leb_le _ _)) by lia. unfold mbind, result_bind.
  replace (Z.to_nat (Z.of_nat l + 2 * 1 - 3 + 1)) with l by lia. reflexivity.
Qed.

Lemma BatchNorm1d_forward_3d (mode : bool) (n : Z) (k b l : nat) (d : bool) :
  0 < n → (mode = true → (b * l)%nat ≠ 1%nat) →
  snd (BatchNorm1d_forward mode n k {| shape := [b; Z.to_nat n; l]; dense := d |})
  = Ok {| shape := [b; Z.to_nat n; l]; dense := d |}.
Proof.
  intros Hn Hb. unfold BatchNorm1d_forward. cbn [shape snd].
  rewrite (proj2 (Z.eqb_eq _ _)) by lia.
  destruct mode; [|done]. simpl.
  by rewrite (proj2 (Nat.eqb_neq _ _)) by auto.
Qed.

Lemma BatchNorm1d_forward_2d (mode : bool) (n : Z) (k b : nat) (d : bool) :
  0 < n → (mode = true → b ≠ 1%nat) →
  snd (BatchNorm1d_forward mode n k {| shape := [b; Z.to_nat n]; dense := d |})
  = Ok {| shape := [b; Z.to_nat n]; dense := d |}.
Proof.
  intros Hn Hb. unfold BatchNorm1d_forward. cbn [shape snd].
  rewrite (proj2 (Z.eqb_eq _ _)) by lia.
  destruct mode; [|done]. simpl.
  rewrite (proj2 (Nat.eqb_neq _ _)); [done|]. specialize (Hb eq_refl). lia.
Qed.

Lemma Linear_forward_2d (i o : Z) (b : nat) (d : bool) :
  0 < i →
  Linear_forward i o {| shape := [b; Z.to_nat i]; dense := d |}
  = Ok {| shape := [b; Z.to_nat o]; dense := true |}.
Proof.
  intros Hi. unfold Linear_forward. cbn [shape reverse rev_append].
  by rewrite (proj2 (Z.eqb_eq _ _)) by lia.
Qed.

Lemma mjoin_blocks_cons (blk : nat → list Layer) (i n : nat) :
  mjoin (blk <$> seq i (S n)) = blk i ++ mjoin (blk <$> seq (S i) n).
Proof. reflexivity. Qed.

(** [n] convolution triples, starting at width [i0], keep batch size and
    length and end at width [i0 + n]. *)
Lemma conv_blocks_forward (mode : bool) (ws : list Z) (b l : nat) :
  Forall (λ w, 0 < w) ws → (1 ≤ l)%nat → (mode = true → (b * l)%nat ≠ 1%nat) →
  ∀ n i0 d, (i0 + n < length ws)%nat →
  snd (Sequential_forward mode (mjoin (conv_block ws <$> seq i0 n))
         {| shape := [b; Z.to_nat (width_at ws i0); l]; dense := d |})
  = Ok {| shape := [b; Z.to_nat (width_at ws (i0 + n)); l];
          dense := match n with 0%nat => d | _ => true end |}.
Proof.
  intros Hpos Hl Hb. induction n as [|n IH]; intros i0 d Hi.
  - by rewrite Nat.add_0_r.
  - rewrite mjoin_blocks_cons. unfold conv_block at 1.
    cbn [app]. rewrite snd_Sequential_forward_cons. cbn [Layer_forward snd].
    pose proof (width_at_pos ws i0 Hpos ltac:(lia)).
    pose proof (width_at_pos ws (S i0) Hpos ltac:(lia)).
    rewrite Conv1d_forward_same by done. unfold mbind at 1, result_bind at 1.
    rewrite snd_Sequential_forward_cons. cbn [Layer_forward].
    rewrite BatchNorm1d_forward_3d by done. unfold mbind at 1, result_bind at 1.
    rewrite snd_Sequential_forward_cons. cbn [Layer_forward snd].
    unfold mbind at 1, result_bind at 1.
    rewrite (IH (S i0) true) by lia.
    replace (S i0 + n)%nat with (i0 + S n)%nat by lia. by destruct n.
Qed.

Lemma lin_blocks_forward (mode : bool) (ws : list Z) (b : nat) :
  Forall (λ w, 0 < w) ws → (mode = true → b ≠ 1%nat) →
  ∀ n i0 d, (i0 + n < length ws)%nat →
  snd (Sequential_forward mode (mjoin (lin_block ws <$> seq i0 n))
         {| shape := [b; Z.to_nat (width_at ws i0)]; dense := d |})
  = Ok {| shape := [b; Z.to_nat (width_at ws (i0 + n))];
          dense := match n with 0%nat => d | _ => true end |}.
Proof.
  intros Hpos Hb. induction n as [|n IH]; intros i0 d Hi.
  - by rewrite Nat.add_0_r.
  - rewrite mjoin_blocks_cons. unfold lin_block at 1.
    cbn [app]. rewrite snd_Sequential_forward_cons. cbn [Layer_forward snd].
    pose proof (width_at_pos ws i0 Hpos ltac:(lia)).
    pose proof (width_at_pos ws (S i0) Hpos ltac:(lia)).
    rewrite Linear_forward_2d by done. unfold mbind at 1, result_bind at 1.
    rewrite snd_Sequential_forward_cons. cbn [Layer_forward].
    rewrite BatchNorm1d_forward_2d by done. unfold mbind at 1, result_bind at 1.
    rewrite snd_Sequential_forward_cons. cbn [Layer_forward snd].
    unfold mbind at 1, result_bind at 1.
    rewrite (IH (S i0) true) by lia.
    replace (S i0 + n)%nat with (i0 + S n)%nat by lia. by destruct n.
Qed.

Lemma last_width_at (ws : list Z) :
  last_width ws = width_at ws (length ws - 1).
Proof.
  destruct ws as [|x ws' _] using rev_ind; [done|].
  unfold last_width, width_at. rewrite List.last_last, length_app. simpl.
  replace (length ws' + 1 - 1)%nat with (length ws') by lia.
  by rewrite nth_middle.
Qed.

(** ** The forward pass as a whole *)

Lemma snd_forward_stacks (m : TempConv) (enc : tensor3) :
  snd (forward_stacks m enc)
  = (out ← snd (Sequential_forward (training m) (conv1d m) (permute_0_2_1 enc));
     out ← view_rows out;
     out ← snd (Sequential_forward (training m) (linear m) out);
     snd (Sequential_forward (training m) (decoder m) out)).
Proof.
  unfold forward_stacks, run_stack.
  destruct (Sequential_forward (training m) (conv1d m) _) as [c [o1|]]; [|done].
  cbn [snd]. unfold mbind at 1, result_bind at 1.
  destruct (view_rows o1) as [o2|]; [|done].
  unfold mbind at 1, result_bind at 1. cbn [training set_conv1d linear].
  destruct (Sequential_forward (training m) (linear m) o2) as [l [o3|]]; [|done].
  cbn [snd]. unfold mbind at 1, result_bind at 1.
  cbn [training set_linear set_conv1d decoder].
  by destruct (Sequential_forward (training m) (decoder m) o3).
Qed.

Lemma forward_stacks_same_arch (m : TempConv) (enc : tensor3) :
  same_arch (fst (forward_stacks m enc)) m.
Proof.
  unfold forward_stacks, run_stack.
  pose proof (Sequential_forward_erase (training m) (conv1d m) (conv1d m)
                (permute_0_2_1 enc) eq_refl) as [_ Hc].
  destruct (Sequential_forward (training m) (conv1d m) _) as [c [o1|]];
    cbn [fst] in *; [|by repeat split].
  destruct (view_rows o1) as [o2|]; [|by repeat split].
  cbn [training set_conv1d linear].
  pose proof (Sequential_forward_erase (training m) (linear m) (linear m)
                o2 eq_refl) as [_ Hl].
  destruct (Sequential_forward (training m) (linear m) o2) as [l [o3|]];
    cbn [fst] in *; [|by repeat split].
  cbn [training set_linear set_conv1d decoder].
  pose proof (Sequential_forward_erase (training m) (decoder m) (decoder m)
                o3 eq_refl) as [_ Hd].
  destruct (Sequential_forward (training m) (decoder m) o3) as [dl r].
  cbn [fst] in *. by repeat split.
Qed.

Lemma forward_same_arch (m : TempConv) (x : tensor3) :
  same_arch (fst (forward m x)) m.
Proof.
  unfold forward. destruct (enc_output m x); [apply forward_stacks_same_arch|].
  apply same_arch_refl.
Qed.

(** ** The position lookup inside forward *)

(** No layer raises IndexError, and none returns a tensor without
    dimensions. *)
Lemma Layer_forward_no_IndexError (mode : bool) (l : Layer) (x : activation) :
  shape x ≠ [] →
  match snd (Layer_forward mode l x) with
  | Ok y => shape y ≠ []
  | Raise e => e ≠ IndexError
  end.
Proof.
  intros Hx. destruct l; simpl.
  - unfold Linear_forward. destruct (reverse (shape x)) as [|k rest]; [done|].
    destruct (Z.of_nat k =? in_features); [|done].
    simpl. by destruct (reverse rest).
  - unfold BatchNorm1d_forward.
    destruct (shape x) as [|b [|c [|n [|? ?]]]] eqn:E; simpl; try done.
    + destruct (mode && _); [done|].
      destruct (Z.of_nat c =? num_features); [|done]. simpl. by rewrite E.
    + destruct (mode && _); [done|].
      destruct (Z.of_nat c =? num_features); [|done]. simpl. by rewrite E.
  - done.
  - unfold Conv1d_forward, conv_out_len.
    destruct (shape x) as [|b [|c [|n [|? ?]]]]; try done.
    + destruct (_ && _); [|done]. by destruct (kernel_size <=? _).
    + destruct (_ && _); [|done]. by destruct (kernel_size <=? _).
Qed.

Lemma Sequential_forward_no_IndexError (mode : bool) (ls : list Layer)
    (x : activation) :
  shape x ≠ [] →
  match snd (Sequential_forward mode ls x) with
  | Ok y => shape y ≠ []
  | Raise e => e ≠ IndexError
  end.
Proof.
  revert x. induction ls as [|l ls IH]; intros x Hx; [done|].
  rewrite snd_Sequential_forward_cons.
  pose proof (Layer_forward_no_IndexError mode l x Hx) as Hl.
  destruct (snd (Layer_forward mode l x)) as [y|e]; [|done].
  simpl. by apply IH.
Qed.

(** Past the encoding step nothing raises IndexError: an IndexError of
    forward comes from the position lookup. *)
Lemma forward_stacks_no_IndexError (m : TempConv) (enc : tensor3) :
  snd (forward_stacks m enc) ≠ Raise IndexError.
Proof.
  rewrite snd_forward_stacks.
  pose proof (Sequential_forward_no_IndexError (training m) (conv1d m)
                (permute_0_2_1 enc) ltac:(done)) as H1.
  destruct (snd (Sequential_forward (training m) (conv1d m) _)) as [o1|e];
    [|simpl; congruence].
  rewrite result_bind_Ok. unfold view_rows.
  destruct (shape o1) as [|b rest]; [done|].
  destruct (b =? 0)%nat; [done|]. destruct (dense o1); [|done].
  rewrite result_bind_Ok.
  pose proof (Sequential_forward_no_IndexError (training m) (linear m)
                {| shape := [b; foldr Nat.mul 1%nat rest]; dense := true |}
                ltac:(done)) as H2.
  destruct (snd (Sequential_forward (training m) (linear m) _)) as [o3|e];
    [|simpl; congruence].
  rewrite result_bind_Ok.
  pose proof (Sequential_forward_no_IndexError (training m) (decoder m) o3 H2)
    as H3.
  destruct (snd (Sequential_forward (training m) (decoder m) o3)) as [o4|e];
    [done | congruence].
Qed.

Lemma tensor_add_no_IndexError (x y : tensor3) :
  tensor_add x y ≠ Raise IndexError.
Proof.
  unfold tensor_add.
  by destruct (bdim (dim0 x) (dim0 y)), (bdim (dim1 x) (dim1 y)),
    (bdim (dim2 x) (dim2 y)).
Qed.

(** C5. In a model built with positions = N the lookup table has N rows.
    The indices forward looks up are 1..L with L the sequence length of
    the input (the configured seq_len plays no part).  For a batch with at
    least one sample the lookup is in bounds exactly when L <= N - 1: then
    forward goes on to add the rows looked up to the input and whatever it
    may still raise is not an IndexError, and otherwise forward raises
    IndexError.  When N = seq_len, a call at the configured length finds
    index seq_len out of range and raises IndexError. *)
Theorem C5_lookup_bounds (h : gmap nat (list Z)) input_size pk seq_len pf mlp4
    (N : Z) nk nf h' m0 m :
  h !! pk = Some nk → h !! pf = Some nf →
  TempConv_init input_size pk seq_len (PyList pf) mlp4 (Some (PInt N)) h
  = (h', Ok m0) →
  same_arch m m0 →
  ∃ pe, position_enc m = Some pe
    ∧ Z.of_nat (num_embeddings pe) = N
    ∧ ∀ x : tensor3, (1 ≤ dim0 x)%nat →
        ∃ sp, src_pos (dim0 x) (dim1 x) = Ok sp
          ∧ ldim0 sp = dim0 x ∧ ldim1 sp = dim1 x
          ∧ (∀ b t, (t < dim1 x)%nat → lat2 sp b t = Z.of_nat t + 1)
          ∧ (is_ok (Embedding_forward pe sp) = true ↔ Z.of_nat (dim1 x) ≤ N - 1)
          ∧ (Z.of_nat (dim1 x) ≤ N - 1 →
               enc_output m x
               = tensor_add x
                   {| dim0 := dim0 x; dim1 := dim1 x; dim2 := embedding_dim pe;
                      at3 := λ b t c, weight_at pe (lat2 sp b t) c |})
          ∧ (snd (forward m x) = Raise IndexError
             ↔ ¬ Z.of_nat (dim1 x) ≤ N - 1)
          ∧ (N = seq_len → Z.of_nat (dim1 x) = seq_len →
               index_ok pe seq_len = false
               ∧ lat2 sp 0 (dim1 x - 1) = seq_len
               ∧ forward m x = (m, Raise IndexError)).
Proof.
  intros Hk Hf Hinit (Ape & _).
  destruct (TempConv_init_Ok_inv _ _ _ _ _ _ _ _ _ _ _ Hk Hf Hinit)
    as (dec & conv & lin & pe0 & _ & _ & _ & Hpe & _ & ->).
  destruct (position_enc_of_given _ _ _ Hpe) as (pe & -> & Hne & Hrows & _).
  simpl in Hne, Hrows, Ape. rewrite length_py_range in Hrows.
  assert (0 < N) as HN.
  { destruct (decide (0 < N)) as [|Hn]; [done|]. exfalso. apply Hne.
    unfold py_range. by replace (Z.to_nat N) with 0%nat by lia. }
  exists pe. split; [done|]. split; [lia|]. intros x Hb.
  destruct (src_pos_Ok (dim0 x) (dim1 x)) as (sp & Hsp & H0 & H1 & Hat).
  exists sp. do 4 (split; [done|]).
  assert (Z.of_nat (dim1 x) ≤ N - 1 →
          enc_output m x
          = tensor_add x
              {| dim0 := dim0 x; dim1 := dim1 x; dim2 := embedding_dim pe;
                 at3 := λ b t c, weight_at pe (lat2 sp b t) c |}) as Hin.
  { intros HL.
    destruct (enc_output_in_bounds m pe x Ape ltac:(lia)) as (sp' & Hsp' & _ & ->).
    rewrite Hsp in Hsp'. by injection Hsp' as <-. }
  split; [|split; [exact Hin|split]].
  - rewrite (lookup_in_bounds pe _ _ sp Hsp Hb) by lia. lia.
  - split.
    + intros Hraise HL. unfold forward in Hraise. rewrite (Hin HL) in Hraise.
      destruct (tensor_add x _) as [enc|e] eqn:Eadd.
      * by apply (forward_stacks_no_IndexError m enc).
      * injection Hraise as ->. by apply (tensor_add_no_IndexError _ _ Eadd).
    + intros HL.
      rewrite (forward_enc_Raise m x IndexError); [done|].
      apply (enc_output_out_of_bounds _ pe); [done|lia..].
  - intros <- HL. split; [|split].
    + unfold index_ok. apply andb_false_iff. right. apply Z.ltb_ge. lia.
    + rewrite Hat by lia. lia.
    + apply forward_enc_Raise. apply (enc_output_out_of_bounds _ pe); [done|lia..].
Qed.

Lemma C5_lookup_bounds_witness :
  ∃ h' m,
    TempConv_init 4 0%nat 5 (PyList 1%nat) [32; 10; 3] (Some (PInt 5)) caller_heap
    = (h', Ok m)
    ∧ ∃ pe, position_enc m = Some pe
        ∧ Z.of_nat (num_embeddings pe) = 5
        ∧ ∀ x : tensor3, (1 ≤ dim0 x)%nat →
            ∃ sp, src_pos (dim0 x) (dim1 x) = Ok sp
              ∧ ldim0 sp = dim0 x ∧ ldim1 sp = dim1 x
              ∧ (∀ b t, (t < dim1 x)%nat → lat2 sp b t = Z.of_nat t + 1)
              ∧ (is_ok (Embedding_forward pe sp) = true ↔ Z.of_nat (dim1 x) ≤ 5 - 1)
              ∧ (Z.of_nat (dim1 x) ≤ 5 - 1 →
                   enc_output m x
                   = tensor_add x
                       {| dim0 := dim0 x; dim1 := dim1 x;
                          dim2 := embedding_dim pe;
                          at3 := λ b t c, weight_at pe (lat2 sp b t) c |})
              ∧ (snd (forward m x) = Raise IndexError
                 ↔ ¬ Z.of_nat (dim1 x) ≤ 5 - 1)
              ∧ (5 = 5 → Z.of_nat (dim1 x) = 5 →
                   index_ok pe 5 = false
                   ∧ lat2 sp 0 (dim1 x - 1) = 5
                   ∧ forward m x = (m, Raise IndexError)).
Proof.
  destruct (TempConv_init_succeeds caller_heap 4 0%nat 5 1%nat [32; 10; 3]
              (Some (PInt 5)) [8; 16] [32])
    as (h' & m & Hinit);
    [reflexivity | reflexivity | lia | lia | repeat constructor..
    | intros p [= <-]; discriminate |].
  exists h', m. split; [exact Hinit|].
  exact (C5_lookup_bounds caller_heap 4 0%nat 5 1%nat [32; 10; 3] 5 [8; 16] [32]
           h' m m eq_refl eq_refl Hinit (same_arch_refl m)).
Defined.

(** C10, as the code has it: the batch has to be one the model accepts.
    For a model built from a consistent configuration (nker not empty,
    positive widths, mlp4 of length >= 2 whose first width is the output
    width of the fully-connected stack), in whatever state of its batch
    counters and training flag, with position encoding absent or a table
    of more than seq_len rows, every batch of shape
    (B, seq_len, input_size) with B >= 1, and B >= 2 in training mode,
    gives an output of shape (B, mlp4[-1]); the batch size is kept. *)
Theorem C10_output_shape (h : gmap nat (list Z)) input_size pk seq_len pf mlp4
    positions nk nf h' m0 m (x : tensor3) :
  h !! pk = Some nk → h !! pf = Some nf →
  TempConv_init input_size pk seq_len (PyList pf) mlp4 positions h = (h', Ok m0) →
  same_arch m m0 →
  nk ≠ [] → 0 < input_size → 0 < seq_len →
  Forall (λ w, 0 < w) nk → Forall (λ w, 0 < w) nf → Forall (λ w, 0 < w) mlp4 →
  (2 ≤ length mlp4)%nat →
  width_at mlp4 0 = last_width (fc_widths input_size seq_len nk nf) →
  (∀ pe, position_enc m0 = Some pe → seq_len < Z.of_nat (num_embeddings pe)) →
  Z.of_nat (dim1 x) = seq_len → Z.of_nat (dim2 x) = input_size →
  (1 ≤ dim0 x)%nat → (training m = true → (2 ≤ dim0 x)%nat) →
  ∃ m', forward m x
        = (m', Ok {| shape := [dim0 x; Z.to_nat (last_width mlp4)];
                     dense := true |})
        ∧ same_arch m' m0.
Proof.
  intros Hk Hf Hinit Harch Hnk Hi Hs Hpk Hpf Hpm Hlen Hhead Hrows HL HC HB Htr.
  destruct (TempConv_init_Ok_inv _ _ _ _ _ _ _ _ _ _ _ Hk Hf Hinit)
    as (dec & conv & lin & pe0 & Hdec & Hconv & Hlin & Hpe & _ & Hm0).
  apply conv_layers_of_inv in Hconv. apply lin_layers_of_inv in Hlin.
  rewrite get_decoder_blocks in Hdec by done. injection Hdec as Hdec.
  rewrite decoder_blocks_split in Hdec by done.
  pose proof Harch as (Ape & Aconv & Alin & Adec).
  rewrite Hm0 in Ape, Aconv, Alin, Adec, Hrows. cbn [position_enc conv1d linear decoder] in *.
  (* the encoding step *)
  assert (∃ enc, enc_output m x = Ok enc ∧ dim0 enc = dim0 x
                 ∧ dim1 enc = dim1 x ∧ dim2 enc = dim2 x)
    as (enc & Henc & E0 & E1 & E2).
  { destruct pe0 as [pe|].
    - destruct (position_enc_of_inv _ _ _ Hpe) as (p & _ & _ & _ & Hdim).
      specialize (Hrows pe eq_refl).
      destruct (enc_output_in_bounds m pe x Ape ltac:(lia)) as (sp & _ & _ & ->).
      destruct (tensor_add_same_shape x
                  {| dim0 := dim0 x; dim1 := dim1 x; dim2 := embedding_dim pe;
                     at3 := λ b t c, weight_at pe (lat2 sp b t) c |})
        as (enc & -> & ? & ? & ? & _); [done | done | simpl; lia |].
      by exists enc.
    - exists x. unfold enc_output. by rewrite Ape. }
  destruct (forward m x) as [m' r] eqn:Hfw. exists m'. split.
  2:{ apply (same_arch_trans m' m m0); [|done].
      replace m' with (fst (forward m x)) by (by rewrite Hfw).
      apply forward_same_arch. }
  f_equal. replace r with (snd (forward m x)) by (by rewrite Hfw).
  rewrite (forward_enc_Ok m x enc Henc), snd_forward_stacks.
  set (ws := input_size :: nk) in *.
  set (fcs := fc_widths input_size seq_len nk nf) in *.
  assert (Forall (λ w, 0 < w) ws) as Hws by (by constructor).
  assert (Forall (λ w, 0 < w) fcs) as Hfcs by (by apply fc_widths_pos).
  (* convolution stack *)
  destruct (Sequential_forward_erase (training m) (conv1d m) conv
              (permute_0_2_1 enc) Aconv) as [-> _].
  replace (permute_0_2_1 enc)
    with {| shape := [dim0 x; Z.to_nat (width_at ws 0); dim1 x];
            dense := (dim2 enc <=? 1)%nat || (dim1 enc <=? 1)%nat |}.
  2:{ unfold permute_0_2_1. rewrite E0, E1, E2.
      replace (Z.to_nat (width_at ws 0)) with (dim2 x); [done|].
      unfold ws, width_at. simpl. lia. }
  rewrite Hconv.
  replace (length ws - 1)%nat with (length nk) by (unfold ws; simpl; lia).
  assert (1 ≤ dim1 x)%nat as HL1 by lia.
  assert (training m = true → (dim0 x * dim1 x)%nat ≠ 1%nat) as Hbl.
  { intros Ht. specialize (Htr Ht). nia. }
  assert (training m = true → dim0 x ≠ 1%nat) as Hb1.
  { intros Ht. specialize (Htr Ht). lia. }
  rewrite (conv_blocks_forward (training m) ws (dim0 x) (dim1 x) Hws HL1 Hbl
             (length nk) 0%nat) by (unfold ws; simpl; lia).
  unfold mbind at 1, result_bind at 1.
  (* flattening *)
  assert (length nk ≠ 0%nat) as Hnk0 by (by destruct nk).
  unfold view_rows. cbn [shape dense].
  rewrite (proj2 (Nat.eqb_neq _ _)) by lia.
  destruct (length nk) as [|k] eqn:Ek; [done|]. rewrite <- Ek.
  unfold mbind at 1, result_bind at 1.
  assert (foldr Nat.mul 1%nat [Z.to_nat (width_at ws (0 + length nk)); dim1 x]
          = Z.to_nat (width_at fcs 0)) as ->.
  { cbn [foldr]. rewrite Nat.mul_1_r.
    change (width_at fcs 0) with (last_width ws * seq_len).
    rewrite last_width_at.
    replace (length ws - 1)%nat with (0 + length nk)%nat by (unfold ws; simpl; lia).
    pose proof (width_at_pos ws (0 + length nk) Hws ltac:(unfold ws; simpl; lia)).
    rewrite Z2Nat.inj_mul by lia. f_equal. lia. }
  (* fully-connected stack *)
  destruct (Sequential_forward_erase (training m) (linear m) lin
              {| shape := [dim0 x; Z.to_nat (width_at fcs 0)]; dense := true |}
              Alin) as [-> _].
  rewrite Hlin.
  rewrite (lin_blocks_forward (training m) fcs (dim0 x) Hfcs Hb1
             (length fcs - 1) 0%nat) by (unfold fcs; simpl; lia).
  unfold mbind at 1, result_bind at 1.
  (* decoder *)
  destruct (Sequential_forward_erase (training m) (decoder m) dec
              {| shape := [dim0 x; Z.to_nat (width_at fcs (0 + (length fcs - 1)))];
                 dense := match (length fcs - 1)%nat with
                          | 0%nat => true | S _ => true end |}
              Adec) as [-> _].
  rewrite <- Hdec, snd_Sequential_forward_app.
  replace (width_at fcs (0 + (length fcs - 1))) with (width_at mlp4 0)
    by (by rewrite Hhead, last_width_at).
  rewrite (lin_blocks_forward (training m) mlp4 (dim0 x) Hpm Hb1
             (length mlp4 - 2) 0%nat) by lia.
  unfold mbind at 1, result_bind at 1.
  rewrite snd_Sequential_forward_cons. cbn [Layer_forward snd].
  rewrite Linear_forward_2d by (apply width_at_pos; [done | lia]).
  by rewrite last_width_at.
Qed.

Lemma C10_output_shape_witness :
  ∃ h' m0,
    TempConv_init 4 0%nat 5 (PyList 1%nat) [32; 10; 3] None caller_heap
    = (h', Ok m0)
    ∧ ∃ m', forward m0 (zeros 2 5 4)
            = (m', Ok {| shape := [2; 3]%nat; dense := true |})
            ∧ same_arch m' m0.
Proof.
  eexists _, _. split; [vm_compute; reflexivity|].
  eapply (C10_output_shape caller_heap 4 0%nat 5 1%nat [32; 10; 3] None
            [8; 16] [32] _ _ _ (zeros 2 5 4)).
  - reflexivity.
  - reflexivity.
  - vm_compute; reflexivity.
  - apply same_arch_refl.
  - discriminate.
  - lia.
  - lia.
  - repeat constructor.
  - repeat constructor.
  - repeat constructor.
  - simpl. lia.
  - reflexivity.
  - intros pe. discriminate.
  - reflexivity.
  - reflexivity.
  - simpl. lia.
  - intros _. simpl. lia.
Defined.

(** The configuration of the specification with positions = 5: a batch of
    the configured shape (2, 5, 4) gives no output at all. *)
Lemma C10_counterexample :
  ∃ h' m,
    TempConv_init 4 0%nat 5 (PyList 1%nat) [32; 10; 3] (Some (PInt 5)) caller_heap
    = (h', Ok m)
    ∧ forward m (zeros 2 5 4) = (m, Raise IndexError).
Proof.
  destruct (TempConv_init_succeeds caller_heap 4 0%nat 5 1%nat [32; 10; 3]
              (Some (PInt 5)) [8; 16] [32])
    as (h' & m & Hinit);
    [reflexivity | reflexivity | lia | lia | repeat constructor..
    | intros p [= <-]; discriminate |].
  exists h', m. split; [exact Hinit|].
  destruct (TempConv_init_Ok_inv caller_heap 4 0%nat 5 1%nat [32; 10; 3]
              (Some (PInt 5)) [8; 16] [32] h' m eq_refl eq_refl Hinit)
    as (dec & conv & lin & pe0 & _ & _ & _ & Hpe & _ & Hm).
  destruct (position_enc_of_given _ _ _ Hpe) as (pe & -> & _ & Hrows & _).
  apply forward_enc_Raise. apply (enc_output_out_of_bounds _ pe).
  - by rewrite Hm.
  - simpl. lia.
  - simpl. lia.
  - rewrite Hrows. simpl. lia.
Qed.

(** ** Errors of the forward pass *)

Lemma set_conv1d_same (m : TempConv) : set_conv1d (conv1d m) m = m.
Proof. by destruct m. Qed.

Lemma Embedding_forward_dims (e : Embedding) (idx : ltensor2) (y : tensor3) :
  Embedding_forward e idx = Ok y →
  dim0 y = ldim0 idx ∧ dim1 y = ldim1 idx ∧ dim2 y = embedding_dim e.
Proof.
  unfold Embedding_forward. destruct (forallb _ _); [|done].
  by intros [= <-].
Qed.

Lemma enc_output_width_mismatch (m : TempConv) (pe : Embedding) (x : tensor3) :
  position_enc m = Some pe →
  dim2 x ≠ embedding_dim pe → dim2 x ≠ 1%nat → embedding_dim pe ≠ 1%nat →
  ∃ e, enc_output m x = Raise e.
Proof.
  intros Hpe Hne H1 H2. unfold enc_output. rewrite Hpe.
  destruct (src_pos_Ok (dim0 x) (dim1 x)) as (sp & -> & H0 & H1' & _).
  unfold mbind at 1, result_bind at 1.
  destruct (Embedding_forward pe sp) as [y|e] eqn:Ey; [|by exists e].
  destruct (Embedding_forward_dims _ _ _ Ey) as (D0 & D1 & D2).
  unfold mbind, result_bind, tensor_add.
  rewrite D0, D1, D2, H0, H1', !bdim_refl. unfold bdim.
  rewrite (proj2 (Nat.eqb_neq _ _) Hne), (proj2 (Nat.eqb_neq _ _) H1),
    (proj2 (Nat.eqb_neq _ _) H2).
  by exists RuntimeError.
Qed.

Lemma forward_first_conv_mismatch (m : TempConv) (x : tensor3) ci co k p rest :
  position_enc m = None →
  conv1d m = Conv1d ci co k p :: rest →
  Z.of_nat (dim2 x) ≠ ci →
  forward m x = (m, Raise RuntimeError).
Proof.
  intros Hpe Hconv Hne. unfold forward, enc_output. rewrite Hpe.
  unfold forward_stacks, run_stack. rewrite Hconv.
  cbn [Sequential_forward Layer_forward]. unfold Conv1d_forward, permute_0_2_1.
  cbn [shape]. rewrite (proj2 (Z.eqb_neq _ _) Hne). cbn [andb].
  by rewrite <- Hconv, set_conv1d_same.
Qed.

(** C7, as the code has it: forward checks nothing itself; errors come
    from the operations it calls.  With position encoding, a batch with
    at least one sample whose sequence length reaches the number of table
    rows raises IndexError at the lookup and leaves the model as it was;
    a trailing dimension other than the table width (neither of them 1)
    raises at the lookup or at the addition, the model unchanged.
    Without position encoding a trailing dimension other than the input
    channels of the first convolution raises RuntimeError there, the
    model unchanged.  A model built with positions = 5 raises IndexError
    on sequence length 7. *)
Theorem C7_forward_errors (m : TempConv) (x : tensor3) :
  (∀ pe, position_enc m = Some pe →
     (1 ≤ dim0 x)%nat → (1 ≤ dim1 x)%nat → (num_embeddings pe ≤ dim1 x)%nat →
     forward m x = (m, Raise IndexError))
  ∧ (∀ pe, position_enc m = Some pe →
       dim2 x ≠ embedding_dim pe → dim2 x ≠ 1%nat → embedding_dim pe ≠ 1%nat →
       ∃ e, forward m x = (m, Raise e))
  ∧ (position_enc m = None →
     ∀ ci co k p rest, conv1d m = Conv1d ci co k p :: rest →
       Z.of_nat (dim2 x) ≠ ci →
       forward m x = (m, Raise RuntimeError))
  ∧ ∃ h' m5,
      TempConv_init 4 0%nat 5 (PyList 1%nat) [32; 10; 3] (Some (PInt 5))
        caller_heap = (h', Ok m5)
      ∧ forward m5 (zeros 2 7 4) = (m5, Raise IndexError).
Proof.
  split; [|split; [|split]].
  - intros pe Hpe Hb Hl Hrows. apply forward_enc_Raise.
    by apply (enc_output_out_of_bounds m pe).
  - intros pe Hpe Hne H1 H2.
    destruct (enc_output_width_mismatch m pe x Hpe Hne H1 H2) as [e He].
    exists e. by apply forward_enc_Raise.
  - intros Hpe ci co k p rest Hconv Hne.
    by apply (forward_first_conv_mismatch m x ci co k p rest).
  - destruct (TempConv_init_succeeds caller_heap 4 0%nat 5 1%nat [32; 10; 3]
                (Some (PInt 5)) [8; 16] [32])
      as (h' & m5 & Hinit);
      [reflexivity | reflexivity | lia | lia | repeat constructor..
      | intros p [= <-]; discriminate |].
    exists h', m5. split; [exact Hinit|].
    destruct (TempConv_init_Ok_inv caller_heap 4 0%nat 5 1%nat [32; 10; 3]
                (Some (PInt 5)) [8; 16] [32] h' m5 eq_refl eq_refl Hinit)
      as (dec & conv & lin & pe0 & _ & _ & _ & Hpe & _ & Hm).
    destruct (position_enc_of_given _ _ _ Hpe) as (pe & -> & _ & Hrows & _).
    apply forward_enc_Raise. apply (enc_output_out_of_bounds _ pe).
    + by rewrite Hm.
    + simpl. lia.
    + simpl. lia.
    + rewrite Hrows. simpl. lia.
Qed.

Lemma C7_forward_errors_witness :
  ∃ h' m,
    TempConv_init 4 0%nat 5 (PyList 1%nat) [32; 10; 3] (Some (PInt 5)) caller_heap
    = (h', Ok m)
    ∧ forward m (zeros 2 7 4) = (m, Raise IndexError).
Proof.
  destruct (TempConv_init_succeeds caller_heap 4 0%nat 5 1%nat [32; 10; 3]
              (Some (PInt 5)) [8; 16] [32])
    as (h' & m & Hinit);
    [reflexivity | reflexivity | lia | lia | repeat constructor..
    | intros p [= <-]; discriminate |].
  exists h', m. split; [exact Hinit|].
  destruct (TempConv_init_Ok_inv caller_heap 4 0%nat 5 1%nat [32; 10; 3]
              (Some (PInt 5)) [8; 16] [32] h' m eq_refl eq_refl Hinit)
    as (dec & conv & lin & pe0 & _ & _ & _ & Hpe & _ & Hm).
  destruct (position_enc_of_given _ _ _ Hpe) as (pe & -> & _ & Hrows & _).
  apply (proj1 (C7_forward_errors m (zeros 2 7 4)) pe).
  - by rewrite Hm.
  - simpl. lia.
  - simpl. lia.
  - rewrite Hrows. simpl. lia.
Defined.

(** Nothing is checked at the start of forward.  With positions = 5 a batch
    of the configured shape (2, 5, 4) raises; with positions = 10 a batch
    of length 4 passes the lookup and the convolution stack, whose
    normalisation layers have counted the batch when the first affine
    layer raises. *)
Lemma C7_counterexample :
  (∃ h' m,
     TempConv_init 4 0%nat 5 (PyList 1%nat) [32; 10; 3] (Some (PInt 5))
       caller_heap = (h', Ok m)
     ∧ forward m (zeros 2 5 4) = (m, Raise IndexError))
  ∧ (∃ h' m m',
       TempConv_init 4 0%nat 5 (PyList 1%nat) [32; 10; 3] (Some (PInt 10))
         caller_heap = (h', Ok m)
       ∧ forward m (zeros 2 4 4) = (m', Raise RuntimeError)
       ∧ conv1d m = [Conv1d 4 8 3 1; BatchNorm1d 8 0; ReLU;
                     Conv1d 8 16 3 1; BatchNorm1d 16 0; ReLU]
       ∧ conv1d m' = [Conv1d 4 8 3 1; BatchNorm1d 8 1; ReLU;
                      Conv1d 8 16 3 1; BatchNorm1d 16 1; ReLU]).
Proof.
  split.
  - destruct (TempConv_init_succeeds caller_heap 4 0%nat 5 1%nat [32; 10; 3]
                (Some (PInt 5)) [8; 16] [32])
      as (h' & m & Hinit);
      [reflexivity | reflexivity | lia | lia | repeat constructor..
      | intros p [= <-]; discriminate |].
    exists h', m. split; [exact Hinit|].
    destruct (TempConv_init_Ok_inv caller_heap 4 0%nat 5 1%nat [32; 10; 3]
                (Some (PInt 5)) [8; 16] [32] h' m eq_refl eq_refl Hinit)
      as (dec & conv & lin & pe0 & _ & _ & _ & Hpe & _ & Hm).
    destruct (position_enc_of_given _ _ _ Hpe) as (pe & -> & _ & Hrows & _).
    apply forward_enc_Raise. apply (enc_output_out_of_bounds _ pe).
    + by rewrite Hm.
    + simpl. lia.
    + simpl. lia.
    + rewrite Hrows. simpl. lia.
  - destruct (TempConv_init_succeeds caller_heap 4 0%nat 5 1%nat [32; 10; 3]
                (Some (PInt 10)) [8; 16] [32])
      as (h' & m & Hinit);
      [reflexivity | reflexivity | lia | lia | repeat constructor..
      | intros p [= <-]; discriminate |].
    destruct (TempConv_init_Ok_inv caller_heap 4 0%nat 5 1%nat [32; 10; 3]
                (Some (PInt 10)) [8; 16] [32] h' m eq_refl eq_refl Hinit)
      as (dec & conv & lin & pe0 & Hdec & Hconv & Hlin & Hpe & _ & Hm).
    destruct (position_enc_of_given _ _ _ Hpe) as (pe & -> & _ & Hrows & Hdim).
    vm_compute in Hdec, Hconv, Hlin.
    injection Hdec as <-. injection Hconv as <-. injection Hlin as <-.
    destruct (enc_output_in_bounds m pe (zeros 2 4 4)) as (sp & _ & _ & Henc).
    { by rewrite Hm. }
    { rewrite Hrows. simpl. lia. }
    destruct (tensor_add_same_shape (zeros 2 4 4)
                {| dim0 := 2; dim1 := 4; dim2 := embedding_dim pe;
                   at3 := λ b t c, weight_at pe (lat2 sp b t) c |})
      as (enc & Hadd & E0 & E1 & E2 & _); [done | done | by rewrite Hdim |].
    change (dim0 (zeros 2 4 4)) with 2%nat in *.
    change (dim1 (zeros 2 4 4)) with 4%nat in *.
    change (dim2 (zeros 2 4 4)) with 4%nat in *.
    rewrite Hadd in Henc.
    exists h', m. eexists. split; [exact Hinit|].
    rewrite (forward_enc_Ok m _ enc Henc). rewrite Hm.
    unfold forward_stacks, run_stack, permute_0_2_1. rewrite E0, E1, E2.
    vm_compute. split; [reflexivity|]. split; reflexivity.
Qed.

(* ================================================================== *)
(** * Further properties of the code *)

(** ** The sinusoid table: when it exists and what it holds *)

Lemma get_sinusoid_encoding_table_inv (d_hid : Z) (T : R)
    (positions : positions_arg) (t : ndarray) :
  get_sinusoid_encoding_table d_hid T positions = Ok t →
  positions_list positions ≠ []
  ∧ t = Nd2 (length (positions_list positions)) (Z.to_nat d_hid)
          ((λ pos, imap (λ j x, if in_slice 1 2 j then cos x else x)
                     (imap (λ j x, if in_slice 0 2 j then sin x else x)
                        (get_posi_angle_vec d_hid T pos)))
           <$> positions_list positions).
Proof.
  unfold get_sinusoid_encoding_table.
  destruct (decide (positions_list positions = [])) as [->|Hne]; [done|].
  rewrite np_array_rows by done. simpl. intros [= <-]. split; [done|].
  f_equal. change map with (@fmap list _).
  by rewrite <- !list_fmap_compose.
Qed.

(** Every entry of a table that was built is the entry of its position
    and column. *)
Lemma table_entry (d_hid : Z) (T : R) (positions : positions_arg)
    (n c : nat) (m : list (list R)) (i j : nat) (row : list R) (x : R) :
  get_sinusoid_encoding_table d_hid T positions = Ok (Nd2 n c m) →
  m !! i = Some row → row !! j = Some x →
  ∃ pos, positions_list positions !! i = Some pos
         ∧ (j < Z.to_nat d_hid)%nat
         ∧ x = sinusoid_entry d_hid T pos j.
Proof.
  intros Ht Hrow Hx.
  destruct (get_sinusoid_encoding_table_inv _ _ _ _ Ht) as [_ [= _ _ ->]].
  rewrite list_lookup_fmap in Hrow.
  destruct (positions_list positions !! i) as [pos|] eqn:Hpos; [|done].
  injection Hrow as <-. exists pos. split; [done|].
  assert (j < Z.to_nat d_hid)%nat as Hj.
  { apply lookup_lt_Some in Hx.
    by rewrite !length_imap, length_get_posi_angle_vec in Hx. }
  split; [done|]. rewrite sinusoid_row_lookup in Hx by done. congruence.
Qed.

(** X1. The table is built exactly when there is at least one position,
    whatever hidden_dim and T are; with no position the call raises
    IndexError.  For an integer argument that means N >= 1. *)
Theorem X1_table_exists_iff_positions (d_hid : Z) (T : R)
    (positions : positions_arg) :
  (is_ok (get_sinusoid_encoding_table d_hid T positions) = true
   ↔ positions_list positions ≠ [])
  ∧ (positions_list positions = [] →
     get_sinusoid_encoding_table d_hid T positions = Raise IndexError)
  ∧ (∀ N, positions = PInt N →
     (is_ok (get_sinusoid_encoding_table d_hid T positions) = true ↔ 1 ≤ N)).
Proof.
  assert (is_ok (get_sinusoid_encoding_table d_hid T positions) = true
          ↔ positions_list positions ≠ []) as Hiff.
  { split.
    - destruct (get_sinusoid_encoding_table d_hid T positions) as [t|] eqn:E;
        [|done].
      intros _. by destruct (get_sinusoid_encoding_table_inv _ _ _ _ E).
    - intros Hne.
      by destruct (get_sinusoid_encoding_table_shape d_hid T positions Hne)
        as [m ->]. }
  split; [done|]. split.
  - intros Hnil. unfold get_sinusoid_encoding_table. by rewrite Hnil.
  - intros N ->. rewrite Hiff. simpl. unfold py_range. split.
    + intros Hne. destruct (decide (1 ≤ N)) as [|Hn]; [done|]. exfalso.
      apply Hne. by replace (Z.to_nat N) with 0%nat by lia.
    + intros HN Hnil. apply (f_equal length) in Hnil.
      rewrite length_fmap, length_seq in Hnil. simpl in Hnil. lia.
Qed.

(** X2. For a positive frequency base every entry of a table lies
    between -1 and 1. *)
Theorem X2_table_entries_bounded (d_hid : Z) (T : R) (positions : positions_arg)
    (n c : nat) (m : list (list R)) :
  (0 < T)%R →
  get_sinusoid_encoding_table d_hid T positions = Ok (Nd2 n c m) →
  ∀ i j row x, m !! i = Some row → row !! j = Some x → (-1 <= x <= 1)%R.
Proof.
  intros _ Ht i j row x Hrow Hx.
  destruct (table_entry _ _ _ _ _ _ _ _ _ _ Ht Hrow Hx) as (pos & _ & _ & ->).
  unfold sinusoid_entry. destruct (Nat.even j); [apply SIN_bound | apply COS_bound].
Qed.

Lemma X2_table_entries_bounded_witness :
  ∃ m, get_sinusoid_encoding_table 4 1000 (PInt 3) = Ok (Nd2 3 4 m)
       ∧ ∀ i j row x, m !! i = Some row → row !! j = Some x → (-1 <= x <= 1)%R.
Proof.
  destruct (get_sinusoid_encoding_table_shape 4 1000 (PInt 3)) as [m Hm];
    [discriminate|].
  exists m. split; [exact Hm|].
  exact (X2_table_entries_bounded 4 1000 (PInt 3) _ _ m
           (IZR_lt 0 1000 eq_refl) Hm).
Defined.

Lemma sinusoid_pair_angle (d_hid : Z) (k : nat) :
  2 * (Z.of_nat (2 * k + 1) `div` 2) = 2 * (Z.of_nat (2 * k) `div` 2).
Proof.
  f_equal.
  replace (Z.of_nat (2 * k + 1)) with (1 + Z.of_nat k * 2) by lia.
  replace (Z.of_nat (2 * k)) with (0 + Z.of_nat k * 2) by lia.
  by rewrite !Z.div_add by lia.
Qed.

(** X3. The columns come in pairs of one frequency: for a positive
    frequency base, in every row the entries at columns 2k and 2k+1 are
    the sine and the cosine of the same angle, so their squares add up
    to 1. *)
Theorem X3_table_column_pairs (d_hid : Z) (T : R) (positions : positions_arg)
    (n c : nat) (m : list (list R)) :
  (0 < T)%R →
  get_sinusoid_encoding_table d_hid T positions = Ok (Nd2 n c m) →
  ∀ i k row s co, m !! i = Some row →
    row !! (2 * k)%nat = Some s → row !! (2 * k + 1)%nat = Some co →
    (s * s + co * co = 1)%R.
Proof.
  intros _ Ht i k row s co Hrow Hs Hco.
  destruct (table_entry _ _ _ _ _ _ _ _ _ _ Ht Hrow Hs) as (pos & Hpos & _ & ->).
  destruct (table_entry _ _ _ _ _ _ _ _ _ _ Ht Hrow Hco) as (pos' & Hpos' & _ & ->).
  assert (pos' = pos) as -> by congruence.
  unfold sinusoid_entry. rewrite (sinusoid_pair_angle d_hid k).
  replace (Nat.even (2 * k)) with true
    by (symmetry; apply Nat.even_spec; by exists k).
  replace (Nat.even (2 * k + 1)) with false.
  2:{ symmetry. rewrite <- Nat.negb_odd. apply negb_false_iff.
      apply Nat.odd_spec. by exists k. }
  cbv zeta. pose proof (sin2_cos2
    (IZR pos / Rpower T (IZR (2 * (Z.of_nat (2 * k) `div` 2)) / IZR d_hid))) as H.
  unfold Rsqr in H. exact H.
Qed.

Lemma X3_table_column_pairs_witness :
  ∃ m, get_sinusoid_encoding_table 4 1000 (PInt 3) = Ok (Nd2 3 4 m)
       ∧ ∀ i k row s co, m !! i = Some row →
           row !! (2 * k)%nat = Some s → row !! (2 * k + 1)%nat = Some co →
           (s * s + co * co = 1)%R.
Proof.
  destruct (get_sinusoid_encoding_table_shape 4 1000 (PInt 3)) as [m Hm];
    [discriminate|].
  exists m. split; [exact Hm|].
  exact (X3_table_column_pairs 4 1000 (PInt 3) _ _ m
           (IZR_lt 0 1000 eq_refl) Hm).
Defined.

Lemma Rpower_zero (T : R) : Rpower T 0 = 1%R.
Proof. unfold Rpower. rewrite Rmult_0_l. apply exp_0. Qed.

Lemma sinusoid_entry_first_columns (d_hid : Z) (T : R) (pos : Z) :
  sinusoid_entry d_hid T pos 0 = sin (IZR pos)
  ∧ sinusoid_entry d_hid T pos 1 = cos (IZR pos).
Proof.
  unfold sinusoid_entry. simpl Nat.even. cbv iota zeta.
  change (Z.of_nat 0 `div` 2) with 0. change (Z.of_nat 1 `div` 2) with 0.
  change (2 * 0) with 0.
  replace (IZR 0 / IZR d_hid)%R with 0%R by (unfold Rdiv; by rewrite Rmult_0_l).
  rewrite Rpower_zero. by rewrite Rdiv_1_r.
Qed.

(** X4. The first pair of columns has frequency 1 for every frequency base
    and every hidden_dim: column 0 of the row of a position is the sine of
    that position, column 1 its cosine. *)
Theorem X4_table_first_columns (d_hid : Z) (T : R) (positions : positions_arg)
    (n c : nat) (m : list (list R)) :
  get_sinusoid_encoding_table d_hid T positions = Ok (Nd2 n c m) →
  ∀ i row pos, m !! i = Some row → positions_list positions !! i = Some pos →
    (∀ x, row !! 0%nat = Some x → x = sin (IZR pos))
    ∧ (∀ x, row !! 1%nat = Some x → x = cos (IZR pos)).
Proof.
  intros Ht i row pos Hrow Hpos.
  destruct (sinusoid_entry_first_columns d_hid T pos) as [H0 H1].
  split; intros x Hx;
    destruct (table_entry _ _ _ _ _ _ _ _ _ _ Ht Hrow Hx) as (pos' & Hpos' & _ & ->);
    congruence.
Qed.

Lemma X4_table_first_columns_witness :
  ∃ m, get_sinusoid_encoding_table 4 1000 (PInt 3) = Ok (Nd2 3 4 m)
       ∧ ∀ i row pos, m !! i = Some row → [0; 1; 2] !! i = Some pos →
           (∀ x, row !! 0%nat = Some x → x = sin (IZR pos))
           ∧ (∀ x, row !! 1%nat = Some x → x = cos (IZR pos)).
Proof.
  destruct (get_sinusoid_encoding_table_shape 4 1000 (PInt 3)) as [m Hm];
    [discriminate|].
  exists m. split; [exact Hm|].
  exact (X4_table_first_columns 4 1000 (PInt 3) _ _ m Hm).
Defined.

Lemma py_range_app (n k : Z) :
  0 ≤ n → 0 ≤ k →
  py_range (n + k) = py_range n ++ ((λ i, n + Z.of_nat i) <$> seq 0 (Z.to_nat k)).
Proof.
  intros Hn Hk. unfold py_range.
  rewrite Z2Nat.inj_add, seq_app, fmap_app by done. f_equal.
  replace (seq (0 + Z.to_nat n) (Z.to_nat k))
    with (Nat.add (Z.to_nat n) <$> seq 0 (Z.to_nat k))
    by (rewrite fmap_add_seq; f_equal; lia).
  rewrite <- list_fmap_compose.
  apply list_fmap_ext. intros _ i _. simpl. lia.
Qed.

Lemma table_of_app (d_hid : Z) (T : R) (l l' : list Z) :
  l ≠ [] →
  ∃ m m',
    get_sinusoid_encoding_table d_hid T (PList l)
    = Ok (Nd2 (length l) (Z.to_nat d_hid) m)
    ∧ get_sinusoid_encoding_table d_hid T (PList (l ++ l'))
      = Ok (Nd2 (length (l ++ l')) (Z.to_nat d_hid) (m ++ m'))
    ∧ length m = length l.
Proof.
  intros Hne.
  destruct (get_sinusoid_encoding_table_shape d_hid T (PList l) Hne) as [m Hm].
  assert (l ++ l' ≠ []) as Hne' by (by destruct l).
  destruct (get_sinusoid_encoding_table_shape d_hid T (PList (l ++ l')) Hne')
    as [m2 Hm2].
  destruct (get_sinusoid_encoding_table_inv _ _ _ _ Hm) as [_ [= Em]].
  destruct (get_sinusoid_encoding_table_inv _ _ _ _ Hm2) as [_ [= Em2]].
  simpl in Em, Em2. rewrite fmap_app in Em2. rewrite <- Em in Em2.
  eexists m, _. split; [exact Hm|]. split.
  - rewrite Hm2, Em2. reflexivity.
  - by rewrite Em, length_fmap.
Qed.

(** X5. A row depends on its own position only: the table for N' >= N
    positions begins with the rows of the table for N positions, so a
    longer table (say seq_len + 1 instead of seq_len rows) changes no
    existing row. *)
Theorem X5_table_extends (d_hid : Z) (T : R) (N N' : Z) :
  1 ≤ N → N ≤ N' →
  ∃ m m',
    get_sinusoid_encoding_table d_hid T (PInt N)
    = Ok (Nd2 (Z.to_nat N) (Z.to_nat d_hid) m)
    ∧ get_sinusoid_encoding_table d_hid T (PInt N')
      = Ok (Nd2 (Z.to_nat N') (Z.to_nat d_hid) (m ++ m'))
    ∧ length m = Z.to_nat N.
Proof.
  intros HN HN'.
  assert (py_range N ≠ []) as Hne.
  { intros Hnil. apply (f_equal length) in Hnil.
    rewrite length_py_range in Hnil. simpl in Hnil. lia. }
  destruct (table_of_app d_hid T (py_range N)
              ((λ i, N + Z.of_nat i) <$> seq 0 (Z.to_nat (N' - N))) Hne)
    as (m & m' & Hm & Hm' & Hlen).
  rewrite <- py_range_app in Hm' by lia.
  replace (N + (N' - N)) with N' in Hm' by lia.
  rewrite !length_py_range in *. by exists m, m'.
Qed.

Lemma X5_table_extends_witness :
  ∃ m m',
    get_sinusoid_encoding_table 4 1000 (PInt 5) = Ok (Nd2 5 4 m)
    ∧ get_sinusoid_encoding_table 4 1000 (PInt 6) = Ok (Nd2 6 4 (m ++ m'))
    ∧ length m = 5%nat.
Proof. apply (X5_table_extends 4 1000 5 6); lia. Defined.

(** ** Short width lists and an empty positions argument *)

(** X6. From fewer than two widths get_decoder builds no layer and raises
    nothing, whatever the widths are (a negative one is never handed to a
    layer constructor). *)
Theorem X6_get_decoder_short_list (n_neurons : list Z) :
  (length n_neurons ≤ 1)%nat → get_decoder n_neurons = Ok [].
Proof.
  intros Hlen. unfold get_decoder, py_range, py_len.
  by replace (Z.to_nat (Z.of_nat (length n_neurons) - 1)) with 0%nat by lia.
Qed.

Lemma X6_get_decoder_short_list_witness :
  get_decoder [-7] = Ok [] ∧ get_decoder [] = Ok [].
Proof.
  split.
  - apply (X6_get_decoder_short_list [-7]). simpl. lia.
  - apply (X6_get_decoder_short_list []). simpl. lia.
Defined.

(** X7. With positions given but empty (0, a negative integer or [])
    the constructor raises IndexError, and only at its last step: both
    copies have been made and extended and all three stacks built by
    then. *)
Theorem X7_empty_positions_raise (h : gmap nat (list Z)) input_size pk seq_len
    pf mlp4 positions nk nf :
  h !! pk = Some nk → h !! pf = Some nf →
  0 < input_size → 0 < seq_len →
  Forall (λ w, 0 < w) nk → Forall (λ w, 0 < w) nf → Forall (λ w, 0 < w) mlp4 →
  positions_list positions = [] →
  TempConv_init input_size pk seq_len (PyList pf) mlp4 (Some positions) h
  = (heap_built h input_size seq_len nk nf, Raise IndexError)
  ∧ is_ok (conv_layers_of (input_size :: nk)) = true
  ∧ is_ok (lin_layers_of (fc_widths input_size seq_len nk nf)) = true
  ∧ is_ok (get_decoder mlp4) = true.
Proof.
  intros Hk Hf Hi Hs Hnk Hnf Hmlp Hnil.
  rewrite (TempConv_init_list h _ pk _ pf _ _ nk nf Hk Hf).
  rewrite get_decoder_blocks by done.
  rewrite conv_layers_of_blocks by (by constructor).
  rewrite lin_layers_of_blocks by (by apply fc_widths_pos).
  unfold position_enc_of, get_sinusoid_encoding_table. by rewrite Hnil.
Qed.

Lemma X7_empty_positions_raise_witness :
  TempConv_init 4 0%nat 5 (PyList 1%nat) [32; 10; 3] (Some (PInt 0)) caller_heap
  = (heap_built caller_heap 4 5 [8; 16] [32], Raise IndexError)
  ∧ is_ok (conv_layers_of [4; 8; 16]) = true
  ∧ is_ok (lin_layers_of (fc_widths 4 5 [8; 16] [32])) = true
  ∧ is_ok (get_decoder [32; 10; 3]) = true.
Proof.
  apply (X7_empty_positions_raise caller_heap 4 0%nat 5 1%nat [32; 10; 3]
           (PInt 0) [8; 16] [32]).
  - reflexivity.
  - reflexivity.
  - lia.
  - lia.
  - repeat constructor.
  - repeat constructor.
  - repeat constructor.
  - reflexivity.
Defined.

(** ** The encoding, end to end *)




(** ** What a forward call does to the model *)

Lemma forward_stacks_unfold (m : TempConv) (enc : tensor3) :
  forward_stacks m enc
  = let '(c, r1) := Sequential_forward (training m) (conv1d m)
                      (permute_0_2_1 enc) in
    match r1 with
    | Raise e => (set_conv1d c m, Raise e)
    | Ok o1 =>
        match view_rows o1 with
        | Raise e => (set_conv1d c m, Raise e)
        | Ok o2 =>
            let '(l, r3) := Sequential_forward (training m) (linear m) o2 in
            match r3 with
            | Raise e => (set_linear l (set_conv1d c m), Raise e)
            | Ok o3 =>
                let '(d, r4) := Sequential_forward (training m) (decoder m) o3 in
                (set_decoder d (set_linear l (set_conv1d c m)), r4)
            end
        end
    end.
Proof.
  unfold forward_stacks, run_stack.
  destruct (Sequential_forward (training m) (conv1d m) _) as [c [o1|]]; [|done].
  destruct (view_rows o1) as [o2|]; [|done].
  cbn [training set_conv1d linear].
  destruct (Sequential_forward (training m) (linear m) o2) as [l [o3|]]; [|done].
  cbn [training set_linear set_conv1d decoder].
  by destruct (Sequential_forward (training m) (decoder m) o3).
Qed.

Lemma Sequential_forward_eval (ls : list Layer) (x : activation) :
  fst (Sequential_forward false ls x) = ls.
Proof.
  revert x. induction ls as [|l ls IH]; intros x; [done|].
  cbn [Sequential_forward].
  assert (fst (Layer_forward false l x) = l) as Hl.
  { destruct l; try done. simpl. unfold BatchNorm1d_forward.
    by destruct (shape x) as [|b [|c [|n [|? ?]]]]. }
  destruct (Layer_forward false l x) as [l' [y|e]]; simpl in Hl; subst l'.
  - specialize (IH y). destruct (Sequential_forward false ls y) as [ls' r].
    simpl in *. by subst.
  - done.
Qed.

(** X9. In evaluation mode a forward call, successful or not, leaves the
    model exactly as it was: no layer and no counter changes, so a second
    call on the same input sees the same model. *)
Theorem X9_eval_forward_keeps_model (m : TempConv) (x : tensor3) :
  fst (forward (train false m) x) = train false m.
Proof.
  unfold forward. destruct (enc_output (train false m) x) as [enc|]; [|done].
  rewrite forward_stacks_unfold.
  change (training (train false m)) with false.
  pose proof (Sequential_forward_eval (conv1d (train false m))
                (permute_0_2_1 enc)) as Hc.
  destruct (Sequential_forward false (conv1d (train false m)) _) as [c [o1|]];
    simpl in Hc; subst c; [|by destruct m].
  destruct (view_rows o1) as [o2|]; [|by destruct m].
  pose proof (Sequential_forward_eval (linear (train false m)) o2) as Hl.
  destruct (Sequential_forward false (linear (train false m)) o2) as [l [o3|]];
    simpl in Hl; subst l; [|by destruct m].
  pose proof (Sequential_forward_eval (decoder (train false m)) o3) as Hd.
  destruct (Sequential_forward false (decoder (train false m)) o3) as [d r4].
  simpl in Hd. subst d. by destruct m.
Qed.

Lemma Sequential_forward_train (ls ls' : list Layer) (x y : activation) :
  Sequential_forward true ls x = (ls', Ok y) → ls' = bump <$> ls.
Proof.
  revert x ls'. induction ls as [|l ls IH]; intros x ls'.
  - by intros [= <- _].
  - cbn [Sequential_forward].
    destruct (Layer_forward true l x) as [l' [z|e]] eqn:Hl; [|done].
    assert (l' = bump l) as ->.
    { destruct l; simpl in Hl; try (by injection Hl as <- _).
      unfold BatchNorm1d_forward in Hl.
      destruct (shape x) as [|b [|c [|n [|? ?]]]]; try done;
        by injection Hl as <- _. }
    destruct (Sequential_forward true ls z) as [ls'' r] eqn:Hls.
    intros [= <- ->]. by rewrite (IH z ls'' Hls).
Qed.

Lemma batches_tracked_bump (ls : list Layer) :
  batches_tracked (bump <$> ls) = S <$> batches_tracked ls.
Proof.
  unfold batches_tracked. induction ls as [|l ls IH]; [done|].
  rewrite fmap_cons. destruct l; simpl; first [exact IH | f_equal; exact IH].
Qed.

(** The batch counters after a stack has run to its end. *)
Lemma Sequential_forward_tracked (mode : bool) (ls ls' : list Layer)
    (x y : activation) :
  Sequential_forward mode ls x = (ls', Ok y) →
  batches_tracked ls'
  = if mode then S <$> batches_tracked ls else batches_tracked ls.
Proof.
  intros H. destruct mode.
  - apply Sequential_forward_train in H as ->. apply batches_tracked_bump.
  - pose proof (Sequential_forward_eval ls x) as He. rewrite H in He.
    simpl in He. by subst.
Qed.

(** X10. A successful forward call in training mode counts the batch
    exactly once in every normalisation layer of the three stacks:
    each num_batches_tracked is one more than before.  The architecture
    of the layers, the position table, the mode, the name and the width
    lists are as before.  (The running statistics, which the same call
    updates, are not part of the model.) *)
Theorem X10_training_forward_counts_batch (m m' : TempConv) (x : tensor3)
    (out : activation) :
  training m = true →
  forward m x = (m', Ok out) →
  batches_tracked (conv1d m') = S <$> batches_tracked (conv1d m)
  ∧ batches_tracked (linear m') = S <$> batches_tracked (linear m)
  ∧ batches_tracked (decoder m') = S <$> batches_tracked (decoder m)
  ∧ same_arch m' m
  ∧ training m' = true
  ∧ name m' = name m ∧ nker m' = nker m ∧ nfc m' = nfc m
  ∧ input_size m' = input_size m ∧ seq_len m' = seq_len m.
Proof.
  intros Htr Hfw.
  assert (same_arch m' m) as Harch.
  { replace m' with (fst (forward m x)) by (by rewrite Hfw).
    apply forward_same_arch. }
  revert Hfw. unfold forward.
  destruct (enc_output m x) as [enc|]; [|done].
  rewrite forward_stacks_unfold, Htr.
  destruct (Sequential_forward true (conv1d m) _) as [c [o1|]] eqn:Hc; [|done].
  destruct (view_rows o1) as [o2|]; [|done].
  destruct (Sequential_forward true (linear m) o2) as [l [o3|]] eqn:Hl; [|done].
  destruct (Sequential_forward true (decoder m) o3) as [d r4] eqn:Hd.
  intros [= <- ->].
  apply Sequential_forward_tracked in Hc, Hl, Hd.
  cbn [conv1d linear decoder set_conv1d set_linear set_decoder].
  do 3 (split; [done|]). split; [exact Harch|]. split; [exact Htr|].
  by repeat split.
Qed.

Lemma X10_training_forward_counts_batch_witness :
  ∃ h' m m',
    TempConv_init 4 0%nat 5 (PyList 1%nat) [32; 10; 3] None caller_heap
    = (h', Ok m)
    ∧ forward m (zeros 2 5 4) = (m', Ok {| shape := [2; 3]%nat; dense := true |})
    ∧ batches_tracked (conv1d m) = [0; 0]%nat
    ∧ batches_tracked (conv1d m') = [1; 1]%nat
    ∧ batches_tracked (linear m') = [1]%nat
    ∧ batches_tracked (decoder m') = [1]%nat.
Proof.
  eassert (TempConv_init 4 0%nat 5 (PyList 1%nat) [32; 10; 3] None caller_heap
           = (_, Ok _)) as Hinit by (vm_compute; reflexivity).
  lazymatch type of Hinit with
  | _ = (_, Ok ?m) =>
      eassert (forward m (zeros 2 5 4)
               = (_, Ok {| shape := [2; 3]%nat; dense := true |})) as Hfw
        by (vm_compute; reflexivity)
  end.
  eexists _, _, _. split; [exact Hinit|]. split; [exact Hfw|].
  pose proof (λ Htr, X10_training_forward_counts_batch _ _ _ _ Htr Hfw) as H.
  destruct (H eq_refl) as (Hc & Hl & Hd & _).
  rewrite Hc, Hl, Hd. repeat split.
Defined.

Lemma enc_output_arch (m m' : TempConv) (x : tensor3) :
  position_enc m = position_enc m' → enc_output m x = enc_output m' x.
Proof. intros H. unfold enc_output. by rewrite H. Qed.

Lemma forward_outcome_arch (m m' : TempConv) (x : tensor3) :
  same_arch m m' → training m = training m' →
  snd (forward m x) = snd (forward m' x).
Proof.
  intros (Hpe & Hc & Hl & Hd) Htr. unfold forward.
  rewrite (enc_output_arch m m' x Hpe).
  destruct (enc_output m' x) as [enc|]; [|done].
  rewrite !snd_forward_stacks, <- Htr.
  destruct (Sequential_forward_erase (training m) (conv1d m) (conv1d m')
              (permute_0_2_1 enc) Hc) as [-> _].
  destruct (snd (Sequential_forward (training m) (conv1d m') _)) as [o1|]; [|done].
  rewrite !result_bind_Ok.
  destruct (view_rows o1) as [o2|]; [|done].
  rewrite !result_bind_Ok.
  destruct (Sequential_forward_erase (training m) (linear m) (linear m') o2 Hl)
    as [-> _].
  destruct (snd (Sequential_forward (training m) (linear m') o2)) as [o3|];
    [|done].
  rewrite !result_bind_Ok.
  by destruct (Sequential_forward_erase (training m) (decoder m) (decoder m')
                 o3 Hd) as [-> _].
Qed.

Lemma forward_training (m : TempConv) (x : tensor3) :
  training (fst (forward m x)) = training m.
Proof.
  unfold forward. destruct (enc_output m x) as [enc|]; [|done].
  rewrite forward_stacks_unfold.
  destruct (Sequential_forward (training m) (conv1d m) _) as [c [o1|]]; [|done].
  destruct (view_rows o1) as [o2|]; [|done].
  destruct (Sequential_forward (training m) (linear m) o2) as [l [o3|]]; [|done].
  by destruct (Sequential_forward (training m) (decoder m) o3).
Qed.

(** X11. The outcome of a forward call (the output shape, or the exception
    raised) depends on the model only through its architecture and its
    mode, not through the batch counters; in particular calling forward
    again on the model a call has left gives the same outcome. *)
Theorem X11_forward_outcome_repeats (m : TempConv) (x : tensor3) :
  (∀ m', same_arch m m' → training m = training m' →
     snd (forward m x) = snd (forward m' x))
  ∧ snd (forward (fst (forward m x)) x) = snd (forward m x).
Proof.
  split.
  - intros m' Harch Htr. by apply forward_outcome_arch.
  - apply forward_outcome_arch.
    + apply forward_same_arch.
    + apply forward_training.
Qed.

(** ** Batch size *)

Lemma enc_output_dim0 (m : TempConv) (x enc : tensor3) :
  enc_output m x = Ok enc → dim0 enc = dim0 x.
Proof.
  unfold enc_output. destruct (position_enc m) as [pe|]; [|by intros [= <-]].
  destruct (src_pos_Ok (dim0 x) (dim1 x)) as (sp & -> & H0 & _ & _).
  unfold mbind at 1, result_bind at 1.
  destruct (Embedding_forward pe sp) as [y|] eqn:Ey; [|done].
  destruct (Embedding_forward_dims _ _ _ Ey) as (D0 & _ & _).
  unfold mbind, result_bind, tensor_add. rewrite D0, H0, bdim_refl.
  destruct (bdim (dim1 x) (dim1 y)); [|done].
  destruct (bdim (dim2 x) (dim2 y)); [|done].
  by intros [= <-].
Qed.

(** On a three-dimensional input every layer keeps the first dimension and
    the rank. *)
Lemma Sequential_forward_rank3 (mode : bool) (ls : list Layer) (x y : activation)
    (b c l : nat) :
  shape x = [b; c; l] →
  snd (Sequential_forward mode ls x) = Ok y →
  ∃ c' l', shape y = [b; c'; l'].
Proof.
  revert x c l. induction ls as [|k ls IH]; intros x c l Hx.
  - intros [= <-]. by exists c, l.
  - rewrite snd_Sequential_forward_cons.
    destruct (snd (Layer_forward mode k x)) as [z|] eqn:Hk; [|done].
    unfold mbind, result_bind.
    assert (∃ c' l', shape z = [b; c'; l']) as (c' & l' & Hz).
    { destruct k; simpl in Hk.
      - unfold Linear_forward in Hk. rewrite Hx in Hk. simpl in Hk.
        destruct (Z.of_nat l =? in_features); [|done].
        injection Hk as <-. by eexists _, _.
      - unfold BatchNorm1d_forward in Hk. rewrite Hx in Hk. simpl in Hk.
        destruct (mode && _); [done|].
        destruct (Z.of_nat c =? num_features); [|done].
        injection Hk as <-. by exists c, l.
      - injection Hk as <-. by exists c, l.
      - unfold Conv1d_forward in Hk. rewrite Hx in Hk.
        destruct (_ && _); [|done].
        destruct (conv_out_len kernel_size padding l) as [l'|]; [|done].
        injection Hk as <-. by eexists _, _. }
    by apply (IH z c' l').
Qed.

(** On a two-dimensional input affine layers, normalisation and ReLU keep
    the first dimension and the rank. *)
Lemma Sequential_forward_rank2 (mode : bool) (ls : list Layer) (x y : activation)
    (b f : nat) :
  Forall (λ k, is_Conv1d k = false) ls →
  shape x = [b; f] →
  snd (Sequential_forward mode ls x) = Ok y →
  ∃ f', shape y = [b; f'].
Proof.
  intros Hls. revert x f. induction Hls as [|k ls Hk _ IH]; intros x f Hx.
  - intros [= <-]. by exists f.
  - rewrite snd_Sequential_forward_cons.
    destruct (snd (Layer_forward mode k x)) as [z|] eqn:Hz; [|done].
    unfold mbind, result_bind.
    assert (∃ f', shape z = [b; f']) as (f' & Hz').
    { destruct k; simpl in Hz; try done.
      - unfold Linear_forward in Hz. rewrite Hx in Hz. simpl in Hz.
        destruct (Z.of_nat f =? in_features); [|done].
        injection Hz as <-. by eexists.
      - unfold BatchNorm1d_forward in Hz. rewrite Hx in Hz. simpl in Hz.
        destruct (mode && _); [done|].
        destruct (Z.of_nat f =? num_features); [|done].
        injection Hz as <-. by exists f.
      - injection Hz as <-. by exists f. }
    by apply (IH z f').
Qed.

Lemma view_rows_shape (o1 o2 : activation) (b c l : nat) :
  shape o1 = [b; c; l] → view_rows o1 = Ok o2 →
  b ≠ 0%nat ∧ shape o2 = [b; (c * (l * 1))%nat].
Proof.
  intros Ho. unfold view_rows. rewrite Ho.
  destruct (b =? 0)%nat eqn:Eb; [done|]. apply Nat.eqb_neq in Eb.
  destruct (dense o1); [|done]. by intros [= <-].
Qed.

Lemma get_decoder_inv (ws : list Z) (ls : list Layer) :
  get_decoder ws = Ok ls →
  ls = mjoin (decoder_block ws <$> seq 0 (length ws - 1)).
Proof.
  unfold get_decoder. rewrite (py_range_len_pred ws 1) by lia.
  destruct (for_each _ _ _) as [r|] eqn:Hls; [|done]. intros [= <-].
  apply (for_each_blocks_inv _ _ (λ i, decoder_block ws (Z.to_nat i))) in Hls.
  - by rewrite Hls, mjoin_fmap_of_nat.
  - intros acc i acc' [k [-> Hk]]%list_elem_of_fmap. apply elem_of_seq in Hk.
    rewrite Nat2Z.id.
    replace (Z.of_nat k + 1) with (Z.of_nat (S k)) by lia.
    rewrite !py_index_width by lia. simpl.
    destruct (nn_Linear _ _) as [c|] eqn:Hc; [|done].
    apply nn_Linear_inv in Hc as ->. simpl.
    unfold decoder_block, py_len.
    destruct (k <? length ws - 2)%nat eqn:Hlast.
    + apply Nat.ltb_lt in Hlast. rewrite (proj2 (Z.ltb_lt _ _)) by lia.
      destruct (nn_BatchNorm1d _) as [bn|] eqn:Hbn; [|done].
      apply nn_BatchNorm1d_inv in Hbn as ->. simpl. intros [= <-].
      by rewrite <- app_assoc.
    + apply Nat.ltb_ge in Hlast. rewrite (proj2 (Z.ltb_ge _ _)) by lia.
      by intros [= <-].
Qed.

Lemma Forall_mjoin_blocks {B} (P : B → Prop) (blk : nat → list B)
    (xs : list nat) :
  (∀ i, Forall P (blk i)) → Forall P (mjoin (blk <$> xs)).
Proof.
  intros H. induction xs as [|i xs IH]; [constructor|].
  change (mjoin (blk <$> i :: xs)) with (blk i ++ mjoin (blk <$> xs)).
  apply Forall_app. split; [apply H | exact IH].
Qed.

Lemma lin_blocks_no_conv (ws : list Z) (xs : list nat) :
  Forall (λ k, is_Conv1d k = false) (mjoin (lin_block ws <$> xs)).
Proof. apply Forall_mjoin_blocks. intros i. by repeat constructor. Qed.

Lemma decoder_blocks_no_conv (ws : list Z) (xs : list nat) :
  Forall (λ k, is_Conv1d k = false) (mjoin (decoder_block ws <$> xs)).
Proof.
  apply Forall_mjoin_blocks. intros i. unfold decoder_block.
  destruct (i <? length ws - 2)%nat; by repeat constructor.
Qed.

(** X12. Whenever a forward call on a constructed model returns, also for
    a configuration whose widths do not fit each other or the data, the
    output is two-dimensional and its first dimension is the batch size
    of the input. *)
Theorem X12_forward_keeps_batch_size (h : gmap nat (list Z)) input_size pk
    seq_len pf mlp4 positions nk nf h' m0 m m' (x : tensor3) (out : activation) :
  h !! pk = Some nk → h !! pf = Some nf →
  TempConv_init input_size pk seq_len (PyList pf) mlp4 positions h = (h', Ok m0) →
  same_arch m m0 →
  forward m x = (m', Ok out) →
  ∃ w, shape out = [dim0 x; w].
Proof.
  intros Hk Hf Hinit (_ & _ & Alin & Adec) Hfw.
  destruct (TempConv_init_Ok_inv _ _ _ _ _ _ _ _ _ _ _ Hk Hf Hinit)
    as (dec & conv & lin & pe0 & Hdec & _ & Hlin & _ & _ & ->).
  apply get_decoder_inv in Hdec. apply lin_layers_of_inv in Hlin.
  cbn [linear decoder] in Alin, Adec. subst dec lin.
  assert (snd (forward m x) = Ok out) as Hout by (by rewrite Hfw).
  unfold forward in Hout.
  destruct (enc_output m x) as [enc|] eqn:Henc; [|done].
  apply enc_output_dim0 in Henc. rewrite snd_forward_stacks in Hout.
  destruct (snd (Sequential_forward (training m) (conv1d m) _)) as [o1|] eqn:H1;
    [|done].
  rewrite result_bind_Ok in Hout.
  destruct (Sequential_forward_rank3 _ _ (permute_0_2_1 enc) _ (dim0 enc)
              (dim2 enc) (dim1 enc) eq_refl H1) as (c' & l' & Ho1).
  destruct (view_rows o1) as [o2|] eqn:H2; [|done].
  rewrite result_bind_Ok in Hout.
  destruct (view_rows_shape _ _ _ _ _ Ho1 H2) as [_ Ho2].
  destruct (Sequential_forward_erase (training m) (linear m) _ o2 Alin)
    as [Hl _]. rewrite Hl in Hout.
  destruct (snd (Sequential_forward (training m) _ o2)) as [o3|] eqn:H3;
    [|done].
  rewrite result_bind_Ok in Hout.
  destruct (Sequential_forward_rank2 _ _ _ _ _ _
              (lin_blocks_no_conv _ _) Ho2 H3) as (f3 & Ho3).
  destruct (Sequential_forward_erase (training m) (decoder m) _ o3 Adec)
    as [Hd _]. rewrite Hd in Hout.
  destruct (Sequential_forward_rank2 _ _ _ _ _ _
              (decoder_blocks_no_conv _ _) Ho3 Hout)
    as (w & Hw).
  exists w. by rewrite Hw, Henc.
Qed.

Lemma X12_forward_keeps_batch_size_witness :
  ∃ h' m m',
    TempConv_init 4 0%nat 5 (PyList 1%nat) [32; 10; 3] None caller_heap
    = (h', Ok m)
    ∧ forward m (zeros 2 5 4) = (m', Ok {| shape := [2; 3]%nat; dense := true |})
    ∧ ∃ w, [2; 3]%nat = [2%nat; w].
Proof.
  eassert (TempConv_init 4 0%nat 5 (PyList 1%nat) [32; 10; 3] None caller_heap
           = (_, Ok _)) as Hinit by (vm_compute; reflexivity).
  lazymatch type of Hinit with
  | _ = (_, Ok ?m) =>
      eassert (forward m (zeros 2 5 4)
               = (_, Ok {| shape := [2; 3]%nat; dense := true |})) as Hfw
        by (vm_compute; reflexivity)
  end.
  eexists _, _, _. split; [exact Hinit|]. split; [exact Hfw|].
  exact (X12_forward_keeps_batch_size caller_heap 4 0%nat 5 1%nat [32; 10; 3]
           None [8; 16] [32] _ _ _ _ (zeros 2 5 4) _ eq_refl eq_refl Hinit
           (same_arch_refl _) Hfw).
Defined.

(** X13. A batch with no sample never gets through: whatever the model,
    forward raises, at the latest where the output of the convolution
    stack is flattened. *)
Theorem X13_empty_batch_raises (m : TempConv) (x : tensor3) :
  dim0 x = 0%nat → ∃ e, snd (forward m x) = Raise e.
Proof.
  intros Hb. unfold forward.
  destruct (enc_output m x) as [enc|e] eqn:Henc; [|by exists e].
  apply enc_output_dim0 in Henc. rewrite snd_forward_stacks.
  destruct (snd (Sequential_forward (training m) (conv1d m) _)) as [o1|e] eqn:H1;
    [|by exists e].
  rewrite result_bind_Ok.
  destruct (Sequential_forward_rank3 _ _ (permute_0_2_1 enc) _ (dim0 enc)
              (dim2 enc) (dim1 enc) eq_refl H1) as (c' & l' & Ho1).
  destruct (view_rows o1) as [o2|e] eqn:H2; [|by exists e].
  destruct (view_rows_shape _ _ _ _ _ Ho1 H2) as [Hne _]. congruence.
Qed.

Lemma X13_empty_batch_raises_witness :
  ∃ h' m,
    TempConv_init 4 0%nat 5 (PyList 1%nat) [32; 10; 3] None caller_heap
    = (h', Ok m)
    ∧ ∃ e, snd (forward m (zeros 0 5 4)) = Raise e.
Proof.
  eassert (TempConv_init 4 0%nat 5 (PyList 1%nat) [32; 10; 3] None caller_heap
           = (_, Ok _)) as Hinit by (vm_compute; reflexivity).
  eexists _, _. split; [exact Hinit|].
  apply (X13_empty_batch_raises _ (zeros 0 5 4)). reflexivity.
Defined.

(** ** A sequence of the wrong length *)

Lemma erase_Linear_inv (l : Layer) (i o : Z) :
  erase l = Linear i o → l = Linear i o.
Proof. by destruct l. Qed.

(** When the first layer of the linear stack, or of the decoder if the
    linear stack is empty, refuses its input, neither stack changes. *)
Lemma linear_decoder_head_raises (mode : bool) (lin dec : list Layer)
    (i o : Z) (rest : list Layer) (x : activation) (e : exn) :
  lin ++ dec = Linear i o :: rest →
  Linear_forward i o x = Raise e →
  match Sequential_forward mode lin x with
  | (lin', Ok y) => lin' = lin ∧ Sequential_forward mode dec y = (dec, Raise e)
  | (lin', Raise e') => lin' = lin ∧ e' = e
  end.
Proof.
  intros Happ Hraise. destruct lin as [|l lin'].
  - simpl in Happ. subst dec. simpl. by rewrite Hraise.
  - injection Happ as -> _. simpl. by rewrite Hraise.
Qed.

(** X14. A sequence length other than seq_len is rejected, though late: on
    a model built from a consistent configuration, when the lookup (if
    any) stays inside the table, a batch of shape (B, L, input_size) with
    L >= 1 and L different from seq_len passes the encoding step, the
    whole convolution stack (whose normalisation layers count the batch
    in training mode) and the flattening to (B, last convolution width *
    L); it is then refused with RuntimeError by the first affine layer
    after the convolutions, whose input width the constructor fixed as
    last convolution width * seq_len.  No layer of the linear stack or of
    the decoder has counted the batch. *)
Theorem X14_wrong_length_rejected (h : gmap nat (list Z)) input_size pk seq_len
    pf mlp4 positions nk nf h' m0 m (x : tensor3) :
  h !! pk = Some nk → h !! pf = Some nf →
  TempConv_init input_size pk seq_len (PyList pf) mlp4 positions h = (h', Ok m0) →
  same_arch m m0 →
  nk ≠ [] → 0 < input_size → 0 < seq_len →
  Forall (λ w, 0 < w) nk → Forall (λ w, 0 < w) nf → Forall (λ w, 0 < w) mlp4 →
  (2 ≤ length mlp4)%nat →
  width_at mlp4 0 = last_width (fc_widths input_size seq_len nk nf) →
  (∀ pe, position_enc m0 = Some pe → (dim1 x < num_embeddings pe)%nat) →
  Z.of_nat (dim2 x) = input_size →
  (1 ≤ dim1 x)%nat → Z.of_nat (dim1 x) ≠ seq_len →
  (1 ≤ dim0 x)%nat → (training m = true → (2 ≤ dim0 x)%nat) →
  ∃ enc o1 flat o rest,
    enc_output m x = Ok enc
    ∧ snd (Sequential_forward (training m) (conv1d m) (permute_0_2_1 enc))
      = Ok o1
    ∧ shape o1 = [dim0 x; Z.to_nat (last_width (input_size :: nk)); dim1 x]
    ∧ view_rows o1 = Ok flat
    ∧ shape flat
      = [dim0 x; (Z.to_nat (last_width (input_size :: nk)) * dim1 x)%nat]
    ∧ linear m ++ decoder m
      = Linear (last_width (input_size :: nk) * seq_len) o :: rest
    ∧ Linear_forward (last_width (input_size :: nk) * seq_len) o flat
      = Raise RuntimeError
    ∧ snd (forward m x) = Raise RuntimeError
    ∧ batches_tracked (conv1d (fst (forward m x)))
      = (if training m then S <$> batches_tracked (conv1d m)
         else batches_tracked (conv1d m))
    ∧ batches_tracked (linear (fst (forward m x))) = batches_tracked (linear m)
    ∧ batches_tracked (decoder (fst (forward m x)))
      = batches_tracked (decoder m).
Proof.
  intros Hk Hf Hinit Harch Hnk Hi Hs Hpk Hpf Hpm Hlen Hhead Hrows HC HL1 HL HB Htr.
  destruct (TempConv_init_Ok_inv _ _ _ _ _ _ _ _ _ _ _ Hk Hf Hinit)
    as (dec & conv & lin & pe0 & Hdec & Hconv & Hlin & Hpe & _ & Hm0).
  apply conv_layers_of_inv in Hconv. apply lin_layers_of_inv in Hlin.
  rewrite get_decoder_blocks in Hdec by done. injection Hdec as Hdec.
  pose proof Harch as (Ape & Aconv & Alin & Adec).
  rewrite Hm0 in Ape, Aconv, Alin, Adec, Hrows.
  cbn [position_enc conv1d linear decoder] in *.
  assert (∃ enc, enc_output m x = Ok enc ∧ dim0 enc = dim0 x
                 ∧ dim1 enc = dim1 x ∧ dim2 enc = dim2 x)
    as (enc & Henc & E0 & E1 & E2).
  { destruct pe0 as [pe|].
    - destruct (position_enc_of_inv _ _ _ Hpe) as (p & _ & _ & _ & Hdim).
      specialize (Hrows pe eq_refl).
      destruct (enc_output_in_bounds m pe x Ape Hrows) as (sp & _ & _ & ->).
      destruct (tensor_add_same_shape x
                  {| dim0 := dim0 x; dim1 := dim1 x; dim2 := embedding_dim pe;
                     at3 := λ b t c, weight_at pe (lat2 sp b t) c |})
        as (enc & -> & ? & ? & ? & _); [done | done | simpl; lia |].
      by exists enc.
    - exists x. unfold enc_output. by rewrite Ape. }
  set (ws := input_size :: nk) in *.
  set (fcs := fc_widths input_size seq_len nk nf) in *.
  assert (Forall (λ w, 0 < w) ws) as Hws by (by constructor).
  assert (training m = true → (dim0 x * dim1 x)%nat ≠ 1%nat) as Hbl.
  { intros Ht. specialize (Htr Ht). nia. }
  assert (length nk ≠ 0%nat) as Hnk0 by (by destruct nk).
  assert (last_width ws = width_at ws (0 + length nk)) as Hlast.
  { rewrite last_width_at. f_equal. unfold ws. simpl. lia. }
  pose proof (last_width_pos ws ltac:(done) Hws) as Hw.
  set (w := last_width ws) in *.
  (* the convolution stack accepts the batch *)
  set (o1 := {| shape := [dim0 x; Z.to_nat w; dim1 x]; dense := true |}).
  assert (snd (Sequential_forward (training m) (conv1d m) (permute_0_2_1 enc))
          = Ok o1) as H1.
  { destruct (Sequential_forward_erase (training m) (conv1d m) conv
                (permute_0_2_1 enc) Aconv) as [-> _].
    replace (permute_0_2_1 enc)
      with {| shape := [dim0 x; Z.to_nat (width_at ws 0); dim1 x];
              dense := (dim2 enc <=? 1)%nat || (dim1 enc <=? 1)%nat |}.
    2:{ unfold permute_0_2_1. rewrite E0, E1, E2.
        replace (Z.to_nat (width_at ws 0)) with (dim2 x); [done|].
        unfold ws, width_at. simpl. lia. }
    rewrite Hconv.
    replace (length ws - 1)%nat with (length nk) by (unfold ws; simpl; lia).
    rewrite (conv_blocks_forward (training m) ws (dim0 x) (dim1 x) Hws HL1 Hbl
               (length nk) 0%nat) by (unfold ws; simpl; lia).
    unfold o1. rewrite Hlast. by destruct (length nk). }
  (* and so does the flattening *)
  set (flat := {| shape := [dim0 x; (Z.to_nat w * dim1 x)%nat]; dense := true |}).
  assert (view_rows o1 = Ok flat) as Hview.
  { unfold view_rows, o1, flat. cbn [shape dense].
    rewrite (proj2 (Nat.eqb_neq _ _)) by lia.
    cbn [foldr]. by rewrite Nat.mul_1_r. }
  (* the first affine layer expects w * seq_len *)
  assert (∃ o rest, linear m ++ decoder m = Linear (w * seq_len) o :: rest)
    as (o & rest & Hfirst).
  { destruct nf as [|a nf'].
    - assert (linear m = []) as ->.
      { subst lin. simpl in Alin. by apply fmap_nil_inv in Alin. }
      rewrite <- Hdec in Adec.
      destruct (length mlp4 - 1)%nat as [|n] eqn:En; [lia|].
      rewrite mjoin_blocks_cons in Adec. unfold decoder_block at 1 in Adec.
      rewrite <- app_comm_cons in Adec.
      destruct (decoder m) as [|d1 ds]; [done|].
      rewrite !fmap_cons in Adec. injection Adec as Hd1 _.
      apply erase_Linear_inv in Hd1 as ->.
      rewrite Hhead. unfold fcs, fc_widths, last_width. cbn [List.last].
      fold (last_width ws). fold w. by eexists _, _.
    - subst lin.
      replace (length fcs - 1)%nat with (S (length nf')) in Alin
        by (unfold fcs; simpl; lia).
      rewrite mjoin_blocks_cons in Alin. unfold lin_block at 1 in Alin.
      rewrite <- app_comm_cons in Alin.
      destruct (linear m) as [|l1 ls]; [done|].
      rewrite !fmap_cons in Alin. injection Alin as Hl1 _.
      apply erase_Linear_inv in Hl1 as ->.
      change (width_at fcs 0) with (w * seq_len). rewrite <- app_comm_cons.
      by eexists _, _. }
  assert (Linear_forward (w * seq_len) o flat = Raise RuntimeError) as Hrefuse.
  { unfold Linear_forward, flat. cbn [shape reverse rev_append].
    rewrite (proj2 (Z.eqb_neq _ _)); [done|]. nia. }
  (* the call as a whole *)
  assert (∃ c l d,
            forward m x = (set_linear l (set_conv1d c m), Raise RuntimeError)
            ∧ batches_tracked c
              = (if training m then S <$> batches_tracked (conv1d m)
                 else batches_tracked (conv1d m))
            ∧ l = linear m
            ∨ forward m x
              = (set_decoder d (set_linear l (set_conv1d c m)), Raise RuntimeError)
            ∧ batches_tracked c
              = (if training m then S <$> batches_tracked (conv1d m)
                 else batches_tracked (conv1d m))
            ∧ l = linear m ∧ d = decoder m) as (c & l & d & Hcall).
  { rewrite (forward_enc_Ok m x enc Henc), forward_stacks_unfold.
    destruct (Sequential_forward (training m) (conv1d m) (permute_0_2_1 enc))
      as [c r1] eqn:Hc.
    simpl in H1. subst r1. rewrite Hview.
    apply Sequential_forward_tracked in Hc.
    pose proof (linear_decoder_head_raises (training m) (linear m) (decoder m)
                  _ o rest flat RuntimeError Hfirst Hrefuse) as Hh.
    destruct (Sequential_forward (training m) (linear m) flat) as [l [o3|e3]].
    - destruct Hh as [-> Hd]. rewrite Hd.
      exists c, (linear m), (decoder m). by right.
    - destruct Hh as [-> ->].
      exists c, (linear m), (decoder m). by left. }
  exists enc, o1, flat, o, rest.
  do 7 (split; [done|]).
  destruct Hcall as [(-> & Hc & ->)|(-> & Hc & -> & ->)];
    cbn [fst snd conv1d linear decoder set_conv1d set_linear set_decoder];
    by repeat split.
Qed.

Lemma X14_wrong_length_rejected_witness :
  ∃ h' m,
    TempConv_init 4 0%nat 5 (PyList 1%nat) [32; 10; 3] None caller_heap
    = (h', Ok m)
    ∧ ∃ enc o1 flat o rest,
        enc_output m (zeros 2 7 4) = Ok enc
        ∧ snd (Sequential_forward (training m) (conv1d m) (permute_0_2_1 enc))
          = Ok o1
        ∧ shape o1 = [2; 16; 7]%nat
        ∧ view_rows o1 = Ok flat
        ∧ shape flat = [2; 112]%nat
        ∧ linear m ++ decoder m = Linear 80 o :: rest
        ∧ Linear_forward 80 o flat = Raise RuntimeError
        ∧ snd (forward m (zeros 2 7 4)) = Raise RuntimeError
        ∧ batches_tracked (conv1d (fst (forward m (zeros 2 7 4))))
          = (if training m then S <$> batches_tracked (conv1d m)
             else batches_tracked (conv1d m))
        ∧ batches_tracked (linear (fst (forward m (zeros 2 7 4))))
          = batches_tracked (linear m)
        ∧ batches_tracked (decoder (fst (forward m (zeros 2 7 4))))
          = batches_tracked (decoder m).
Proof.
  eassert (TempConv_init 4 0%nat 5 (PyList 1%nat) [32; 10; 3] None caller_heap
           = (_, Ok _)) as Hinit by (vm_compute; reflexivity).
  eexists _, _. split; [exact Hinit|].
  eapply (X14_wrong_length_rejected caller_heap 4 0%nat 5 1%nat [32; 10; 3] None
            [8; 16] [32] _ _ _ (zeros 2 7 4) eq_refl eq_refl Hinit).
  - apply same_arch_refl.
  - discriminate.
  - lia.
  - lia.
  - repeat constructor.
  - repeat constructor.
  - repeat constructor.
  - simpl. lia.
  - reflexivity.
  - intros pe. discriminate.
  - reflexivity.
  - simpl. lia.
  - simpl. lia.
  - simpl. lia.
  - intros _. simpl. lia.
Defined.
